(** * A shallow embedding of [python/inference/inference.py]

    The definitions come first, in the order of the source file: the
    Python values a configuration document is made of, the part of the
    tensor library the engine calls, and the engine's methods. The
    properties of the engine follow, and then executions on concrete
    inputs.

    Conventions.
    - A Python exception is a value of [pyerr]; a call that may raise
      returns a [result].
    - Methods that assign to [self] or touch the file system or the clock
      live in the state-and-exception monad [M], whose state survives an
      exception, as the fields of a Python object do.
    - Floating-point numbers are idealised as rationals ([Q]). *)

From Stdlib Require Import ZArith QArith Qround Lia List Bool Sorted.
From stdpp Require Import base option list strings gmap.

Set Warnings "-register-all".
Local Open Scope Z_scope.
Local Open Scope string_scope.

(** ** Exceptions and results *)

Inductive pyerr : Type :=
| KeyError (key : string)
| TypeError
| AttributeError
| ValueError (msg : string)
| ZeroDivisionError
| RuntimeError
| IndexError
| FileNotFoundError
| DecodeError.

Inductive result (A : Type) : Type :=
| Ok (a : A)
| Err (e : pyerr).
Arguments Ok {A} a.
Arguments Err {A} e.

Definition rbind {A B} (r : result A) (k : A -> result B) : result B :=
  match r with
  | Ok a => k a
  | Err e => Err e
  end.

Definition is_ok {A} (r : result A) : bool :=
  match r with Ok _ => true | Err _ => false end.

#[export] Instance result_ret : MRet result := fun _ a => Ok a.
#[export] Instance result_bind : MBind result := fun _ _ k r => rbind r k.

(** ** Python values read from JSON *)

Module Py.

(** What [json.load] returns. A [dict] keeps its insertion order, so it is
    an association list; [lookup] finds the first binding. *)
Inductive json : Type :=
| JNull
| JBool (b : bool)
| JInt (n : Z)
| JFloat (q : Q)
| JStr (s : string)
| JList (l : list json)
| JDict (d : list (string * json)).

Fixpoint assoc {V} (k : string) (d : list (string * V)) : option V :=
  match d with
  | [] => None
  | (k', v) :: d' => if String.eqb k k' then Some v else assoc k d'
  end.

(** [v[k]] with a string key. *)
Definition getitem (v : json) (k : string) : result json :=
  match v with
  | JDict d => match assoc k d with Some x => Ok x | None => Err (KeyError k) end
  | _ => Err TypeError
  end.

(** [v.get(k, default)]: only a [dict] has the method. *)
Definition get (v : json) (k : string) (default : json) : result json :=
  match v with
  | JDict d => Ok (match assoc k d with Some x => x | None => default end)
  | _ => Err AttributeError
  end.

Definition is_substring (k s : string) : bool :=
  match String.index 0 k s with Some _ => true | None => false end.

Definition is_str (k : string) (v : json) : bool :=
  match v with JStr s => String.eqb k s | _ => false end.

(** [k in v] for a string [k]: key membership in a dict, element
    membership in a list, substring test in a string. *)
Definition contains (k : string) (v : json) : result bool :=
  match v with
  | JDict d => Ok (match assoc k d with Some _ => true | None => false end)
  | JList l => Ok (existsb (is_str k) l)
  | JStr s => Ok (is_substring k s)
  | _ => Err TypeError
  end.

(** [len(v)]. *)
Definition len (v : json) : result nat :=
  match v with
  | JList l => Ok (length l)
  | JDict d => Ok (length d)
  | JStr s => Ok (String.length s)
  | _ => Err TypeError
  end.

(** [v[i]] with a non-negative integer index. A dict read from JSON has
    string keys only, so an integer key is always absent. *)
Definition index (v : json) (i : nat) : result json :=
  match v with
  | JList l => match nth_error l i with Some x => Ok x | None => Err IndexError end
  | JStr s => match String.get i s with
              | Some c => Ok (JStr (String c EmptyString))
              | None => Err IndexError
              end
  | JDict _ => Err (KeyError "<int>")
  | _ => Err TypeError
  end.

(** [v[1:]]. *)
Definition tail_slice (v : json) : result json :=
  match v with
  | JList l => Ok (JList (tl l))
  | JStr s => Ok (JStr (match s with EmptyString => EmptyString | String _ s' => s' end))
  | _ => Err TypeError
  end.

(** [n == v] for an integer [n]: numbers compare by value, [True] is 1
    and [False] is 0; a value of any other type differs, without error. *)
Definition eq_int (n : Z) (v : json) : bool :=
  match v with
  | JInt m => Z.eqb n m
  | JBool b => Z.eqb n (if b then 1 else 0)
  | JFloat q => Qeq_bool (inject_Z n) q
  | _ => false
  end.

(** Rounding towards zero, as [int] does on a float. *)
Definition trunc (q : Q) : Z :=
  if Qle_bool 0 q then Qfloor q else Qceiling q.

(** What a [for] loop over [v] visits: the elements of a list, the keys of
    a dict, the characters of a string. *)
Fixpoint chars (s : string) : list json :=
  match s with
  | EmptyString => []
  | String c s' => JStr (String c EmptyString) :: chars s'
  end.

Definition iter (v : json) : result (list json) :=
  match v with
  | JList l => Ok l
  | JDict d => Ok (List.map (fun kv => JStr (fst kv)) d)
  | JStr s => Ok (chars s)
  | _ => Err TypeError
  end.

(** [bool(v)] for a JSON value. *)
Definition truthy (v : json) : bool :=
  match v with
  | JNull => false
  | JBool b => b
  | JInt n => negb (Z.eqb n 0)
  | JFloat q => negb (Qeq_bool q 0)
  | JStr s => negb (String.eqb s "")
  | JList l => match l with [] => false | _ => true end
  | JDict d => match d with [] => false | _ => true end
  end.

End Py.
Export Py.

(** ** The tensor library, as far as the engine uses it

    The numerical kernels belong to the tensor library, not to the engine.
    What the engine's own code depends on is modelled here from the
    library's documented behaviour: the shape bookkeeping of [squeeze],
    [item], [tolist], [max] and [topk] along the last dimension, and
    [softmax] along the last dimension over an exponential that is left
    abstract. *)

Module Tensors.

(** A dense tensor: its shape and its elements in row-major order. *)
Record Tensor (A : Type) : Type := mkTensor {
  shape : list nat;
  data : list A
}.
Arguments mkTensor {A} shape data.
Arguments shape {A} t.
Arguments data {A} t.

Definition numel_of (s : list nat) : nat := fold_right Nat.mul 1%nat s.

(** The invariant every tensor of the library satisfies. *)
Definition wf {A} (t : Tensor A) : Prop :=
  length (data t) = numel_of (shape t).

(** [n] consecutive rows of [c] elements. *)
Fixpoint chunks {A} (n c : nat) (l : list A) : list (list A) :=
  match n with
  | O => []
  | S n' => firstn c l :: chunks n' c (skipn c l)
  end.

(** The size of the last dimension; a 0-dimensional tensor is treated as
    one row of one element. *)
Definition last_dim (s : list nat) : nat := List.last s 1%nat.

Definition rows {A} (t : Tensor A) : list (list A) :=
  chunks (numel_of (removelast (shape t))) (last_dim (shape t)) (data t).

(** [t.squeeze()]: every dimension of size 1 is removed. *)
Definition squeeze {A} (t : Tensor A) : Tensor A :=
  mkTensor (List.filter (fun n => negb (Nat.eqb n 1)) (shape t)) (data t).

(** [t.item()]: only a tensor with exactly one element converts; on any
    other the library raises (a [RuntimeError] in its current versions). *)
Definition item {A} (t : Tensor A) : result A :=
  match data t with
  | [a] => Ok a
  | _ => Err RuntimeError
  end.

(** What [t.tolist()] returns: a bare scalar for a 0-dimensional tensor,
    else a list nested as deep as the tensor has dimensions. *)
Inductive nested (A : Type) : Type :=
| Scalar (a : A)
| Nested (l : list (nested A)).
Arguments Scalar {A} a.
Arguments Nested {A} l.

Fixpoint tolist_aux {A} (s : list nat) (d : list A) : nested A :=
  match s with
  | [] => match d with a :: _ => Scalar a | [] => Nested [] end
  | n :: s' => Nested (List.map (tolist_aux s') (chunks n (numel_of s') d))
  end.

Definition tolist {A} (t : Tensor A) : nested A :=
  tolist_aux (shape t) (data t).

(** The flat Python list a [nested] value is, when it is one. *)
Definition as_scalar {A} (v : nested A) : option A :=
  match v with Scalar a => Some a | Nested _ => None end.

Fixpoint all_some {A} (l : list (option A)) : option (list A) :=
  match l with
  | [] => Some []
  | None :: _ => None
  | Some a :: l' => match all_some l' with Some r => Some (a :: r) | None => None end
  end.

Definition as_flat_list {A} (v : nested A) : option (list A) :=
  match v with
  | Scalar _ => None
  | Nested l => all_some (List.map as_scalar l)
  end.

(** Sorting a row together with its indices, largest value first; among
    equal values the smaller index comes first. *)
Fixpoint insert_desc (x : Q * nat) (l : list (Q * nat)) : list (Q * nat) :=
  match l with
  | [] => [x]
  | y :: l' =>
      if Qle_bool (fst y) (fst x) then x :: l else y :: insert_desc x l'
  end.

Definition sort_desc (l : list (Q * nat)) : list (Q * nat) :=
  fold_right insert_desc [] l.

Definition indexed (row : list Q) : list (Q * nat) :=
  combine row (seq 0 (length row)).

Definition row_topk (k : nat) (row : list Q) : list (Q * nat) :=
  firstn k (sort_desc (indexed row)).

(** [torch.topk(t, k)] along the last dimension: values and indices of
    shape [shape[:-1] + [k]], values sorted in descending order. It raises
    when [k] is negative or exceeds the last dimension. *)
Definition topk (t : Tensor Q) (k : Z) : result (Tensor Q * Tensor nat) :=
  if Z.ltb k 0 || Z.ltb (Z.of_nat (last_dim (shape t))) k then Err RuntimeError
  else
    let k' := Z.to_nat k in
    let picked := List.map (row_topk k') (rows t) in
    let shp := match shape t with
               | [] => []
               | _ => (removelast (shape t) ++ [k'])%list
               end in
    Ok (mkTensor shp (List.concat (List.map (List.map fst) picked)),
        mkTensor shp (List.concat (List.map (List.map snd) picked))).

(** [torch.max(t, dim=-1)]: the largest value of each row and its index,
    of shape [shape[:-1]]. It raises on rows without elements. *)
Definition max_last (t : Tensor Q) : result (Tensor Q * Tensor nat) :=
  if Nat.eqb (last_dim (shape t)) 0 then Err RuntimeError
  else
    let picked := List.map (row_topk 1) (rows t) in
    let shp := removelast (shape t) in
    Ok (mkTensor shp (List.concat (List.map (List.map fst) picked)),
        mkTensor shp (List.concat (List.map (List.map snd) picked))).

Definition Qsum (l : list Q) : Q := fold_right Qplus 0%Q l.

(** [softmax] of one row over the exponential [fexp]. *)
Definition softmax_row (fexp : Q -> Q) (row : list Q) : list Q :=
  let es := List.map fexp row in
  List.map (fun e => (e / Qsum es)%Q) es.

(** [torch.softmax(t, dim=-1)]. *)
Definition softmax (fexp : Q -> Q) (t : Tensor Q) : Tensor Q :=
  mkTensor (shape t) (List.concat (List.map (softmax_row fexp) (rows t))).

(** Descending order on a row paired with its indices. *)
Definition desc (a b : Q * nat) : Prop := (fst b <= fst a)%Q.

End Tensors.
Export Tensors.

(** ** The engine's collaborators *)

(** The layers [torch.nn] offers, as the source constructs them. The
    arguments are kept as passed: a [json] argument is a value handed to
    the constructor unconverted. *)
Inductive nnModule : Type :=
| Linear (in_features out_features : Z)
| Conv2d (in_channels out_channels : Z) (kernel_size : json)
         (stride : Z) (padding : json) (bias : json)
| MaxPool2d (kernel_size : json) (stride : Z) (padding : json)
| Flatten
| Dropout (p : Q)
| BatchNorm1d (num_features : Z)
| ReLU
| Sigmoid
| Tanh
| Softmax (dim : Z)
| GELU
| Sequential (children : list nnModule).

(** The object [self.model] refers to: an [nn.Sequential] with its
    parameter state, whether [to(device)] has placed it, and its
    training flag. *)
Record Pipeline (SD : Type) : Type := mkPipeline {
  stages : list nnModule;
  params : SD;
  placed : bool;
  training : bool
}.
Arguments mkPipeline {SD} stages params placed training.
Arguments stages {SD} p.
Arguments params {SD} p.
Arguments placed {SD} p.
Arguments training {SD} p.

(** Everything the source calls but does not define: the tensor library's
    constructors and kernels, Python's string-to-number parsing, and the
    wall clock. *)
Class External : Type := {
  (** the type of a serialized parameter state *)
  StateDict : Type;
  (** the exception a layer constructor raises for its arguments, if any *)
  nn_init : nnModule -> option pyerr;
  (** the freshly initialized parameters of an [nn.Sequential] over the
      given layers *)
  default_state : list nnModule -> StateDict;
  (** [model.load_state_dict(sd)]: the parameters afterwards, and the
      exception raised, if any *)
  load_state_dict : Pipeline StateDict -> StateDict -> StateDict * option pyerr;
  (** the exception [model.to(device)] raises, if any *)
  to_error : Pipeline StateDict -> option pyerr;
  (** the exception [torch.save(sd, path)] raises, if any *)
  save_error : string -> option pyerr;
  (** [model(x)] *)
  forward : Pipeline StateDict -> Tensor Q -> result (Tensor Q);
  forward_wf : forall m x y, wf x -> forward m x = Ok y -> wf y;
  (** the exponential [softmax] is built on *)
  fexp : Q -> Q;
  fexp_pos : forall x, (0 < fexp x)%Q;
  (** the elements [torch.randn] draws for a shape *)
  randn_data : list nat -> list Q;
  randn_length : forall s, length (randn_data s) = numel_of s;
  (** [torch.tensor(times).std().item()] *)
  std : list Q -> Q;
  (** [int(s)] and [float(s)] on a string; [None] when the text does not
      parse *)
  int_of_str : string -> option Z;
  float_of_str : string -> option Q;
  (** successive readings of [time.time()] *)
  clock : nat -> Q
}.

(** ** The engine *)

Module InferenceEngine.
Section Engine.
Context `{Ext : External}.

(** What a path of the file system holds: a parameter state written by
    [torch.save], a JSON text, or bytes that are neither. [torch.load]
    reads only the first, [json.load] only the second. *)
Inductive file : Type :=
| NativeBlob (sd : StateDict)
| JsonText (j : json)
| OtherBytes.

Record World : Type := mkWorld {
  files : gmap string file;
  ticks : nat
}.

(** The fields of [self]; the device is fixed at construction and left
    out. [None] in [config] is [JNull], which is what [json.load] gives
    for [null] too. *)
Record Engine : Type := mkEngine {
  model : option (Pipeline StateDict);
  config : json
}.

(** [__init__] *)
Definition init : Engine := mkEngine None JNull.

Record State : Type := mkState {
  self : Engine;
  world : World
}.

(** Computations that may raise and that change [self] or the world; the
    state reached when the exception was raised is kept. *)
Definition M (A : Type) : Type := State -> result A * State.

Definition ret {A} (a : A) : M A := fun s => (Ok a, s).
Definition raise {A} (e : pyerr) : M A := fun s => (Err e, s).
Definition bind {A B} (c : M A) (k : A -> M B) : M B :=
  fun s => match c s with
           | (Ok a, s') => k a s'
           | (Err e, s') => (Err e, s')
           end.
Definition lift {A} (r : result A) : M A := fun s => (r, s).
Definition get_self : M Engine := fun s => (Ok (self s), s).
Definition set_config (c : json) : M unit :=
  fun s => (Ok tt, mkState (mkEngine (model (self s)) c) (world s)).
Definition set_model (m : option (Pipeline StateDict)) : M unit :=
  fun s => (Ok tt, mkState (mkEngine m (config (self s))) (world s)).
(** [try: body except: handler], with a bare [except]. *)
Definition try_except {A} (body handler : M A) : M A :=
  fun s => match body s with
           | (Ok a, s') => (Ok a, s')
           | (Err _, s') => handler s'
           end.

#[export] Instance M_ret : MRet M := @ret.
#[export] Instance M_bind : MBind M := fun _ _ k c => bind c k.

(** [time.time()] *)
Definition time : M Q :=
  fun s => (Ok (clock (ticks (world s))),
            mkState (self s) (mkWorld (files (world s)) (S (ticks (world s))))).

(** [open(path, 'r')] followed by [json.load]. *)
Definition read_json (path : string) : M json :=
  fun s => match files (world s) !! path with
           | None => (Err FileNotFoundError, s)
           | Some (JsonText j) => (Ok j, s)
           | Some _ => (Err DecodeError, s)
           end.

(** [torch.load(path, map_location=self.device)] *)
Definition torch_load (path : string) : M StateDict :=
  fun s => match files (world s) !! path with
           | None => (Err FileNotFoundError, s)
           | Some (NativeBlob sd) => (Ok sd, s)
           | Some _ => (Err DecodeError, s)
           end.

(** [torch.save(sd, path)] *)
Definition torch_save (sd : StateDict) (path : string) : M unit :=
  fun s => match save_error path with
           | Some e => (Err e, s)
           | None => (Ok tt, mkState (self s)
                        (mkWorld (<[path := NativeBlob sd]> (files (world s)))
                                 (ticks (world s))))
           end.

(** [int(v)] *)
Definition py_int (v : json) : result Z :=
  match v with
  | JInt n => Ok n
  | JBool b => Ok (if b then 1 else 0)
  | JFloat q => Ok (trunc q)
  | JStr s => match int_of_str s with Some n => Ok n | None => Err (ValueError "int") end
  | _ => Err TypeError
  end.

(** [float(v)] *)
Definition py_float (v : json) : result Q :=
  match v with
  | JInt n => Ok (inject_Z n)
  | JBool b => Ok (if b then 1%Q else 0%Q)
  | JFloat q => Ok q
  | JStr s => match float_of_str s with Some q => Ok q | None => Err (ValueError "float") end
  | _ => Err TypeError
  end.

(** Calling a layer constructor. *)
Definition construct (m : nnModule) : result nnModule :=
  match nn_init m with
  | Some e => Err e
  | None => Ok m
  end.

(** [bool(m)] for a module: [nn.Sequential] has a length, and is false
    when empty; every other module is true. *)
Definition module_truthy (m : nnModule) : bool :=
  match m with
  | Sequential [] => false
  | _ => true
  end.

(** [_load_config] *)
Definition _load_config (path : string) : M json := read_json path.

(** [_create_activation]: [activations.get(name)]; a list or dict is not
    hashable and cannot be looked up. *)
Definition _create_activation (name : json) : result (option nnModule) :=
  match name with
  | JStr s =>
      Ok (if String.eqb s "ReLU" then Some ReLU
          else if String.eqb s "Sigmoid" then Some Sigmoid
          else if String.eqb s "Tanh" then Some Tanh
          else if String.eqb s "Softmax" then Some (Softmax (-1))
          else if String.eqb s "GELU" then Some GELU
          else None)
  | JList _ | JDict _ => Err TypeError
  | _ => Ok None
  end.

(** [isinstance(v, list)] then [tuple(v)]: the items are kept. *)
Definition as_tuple (v : json) : json := v.

(** [_create_layer] *)
Definition _create_layer (config : json) : result (option nnModule) :=
  layer_type ← getitem config "type";
  params ← getitem config "params";
  if is_str "Dense" layer_type then
    i ← getitem params "input_size" ≫= py_int;
    o ← getitem params "output_size" ≫= py_int;
    layer ← construct (Linear i o);
    has ← contains "activation" params;
    if has : bool then
      activation ← getitem params "activation" ≫= _create_activation;
      match activation with
      | Some a => Ok (Some (Sequential [layer; a]))
      | None => Ok (Some layer)
      end
    else Ok (Some layer)
  else if is_str "Conv2D" layer_type then
    kernel_size ← getitem params "kernel_size";
    let kernel_size := as_tuple kernel_size in
    ic ← getitem params "in_channels" ≫= py_int;
    oc ← getitem params "out_channels" ≫= py_int;
    st ← getitem params "stride" ≫= py_int;
    pad ← getitem params "padding";
    bias ← get params "use_bias" (JBool true);
    layer ← construct (Conv2d ic oc kernel_size st pad bias);
    Ok (Some layer)
  else if is_str "MaxPool2D" layer_type then
    pool_size ← getitem params "pool_size";
    let pool_size := as_tuple pool_size in
    st ← getitem params "stride" ≫= py_int;
    pad ← getitem params "padding";
    layer ← construct (MaxPool2d pool_size st
                         (if is_str "valid" pad then JInt 0 else JStr "same"));
    Ok (Some layer)
  else if is_str "Flatten" layer_type then
    layer ← construct Flatten;
    Ok (Some layer)
  else if is_str "Dropout" layer_type then
    rate ← getitem params "rate" ≫= py_float;
    layer ← construct (Dropout rate);
    Ok (Some layer)
  else if is_str "BatchNorm" layer_type then
    n ← getitem params "size" ≫= py_int;
    layer ← construct (BatchNorm1d n);
    Ok (Some layer)
  else Ok None.

(** The loop of [_build_model_from_config]: [layers] accumulates the
    stages created so far. *)
Fixpoint build_loop (items : list json) (layers : list nnModule)
  : result (list nnModule) :=
  match items with
  | [] => Ok layers
  | layer_config :: rest =>
      layer ← _create_layer layer_config;
      match layer with
      | Some l => if module_truthy l then build_loop rest (layers ++ [l])%list
                  else build_loop rest layers
      | None => build_loop rest layers
      end
  end.

(** [nn.Sequential] over the layers: a fresh module, in training mode and
    not yet placed. *)
Definition nn_Sequential (layers : list nnModule) : Pipeline StateDict :=
  mkPipeline layers (default_state layers) false true.

(** [_build_model_from_config] *)
Definition _build_model_from_config (e : Engine) : result (Pipeline StateDict) :=
  declared ← getitem (config e) "layers";
  items ← iter declared;
  layers ← build_loop items [];
  Ok (nn_Sequential layers).

(** [_load_weights_from_json]: the body is [pass]. *)
Definition _load_weights_from_json (weights_data : json) : M unit := ret tt.

(** [self.model.load_state_dict(state_dict)]; with no model the attribute
    access on [None] raises. The parameters are what the library left,
    also when it raised. *)
Definition model_load_state_dict (sd : StateDict) : M unit :=
  fun s => match model (self s) with
           | None => (Err AttributeError, s)
           | Some m =>
               let (p', err) := load_state_dict m sd in
               let m' := mkPipeline (stages m) p' (placed m) (training m) in
               let s' := mkState (mkEngine (Some m') (config (self s))) (world s) in
               match err with
               | Some e => (Err e, s')
               | None => (Ok tt, s')
               end
           end.

(** [_load_weights] *)
Definition _load_weights (path : string) : M unit :=
  try_except
    (state_dict ← torch_load path;
     model_load_state_dict state_dict)
    (weights_data ← read_json path;
     _load_weights_from_json weights_data).

(** [self.model.to(self.device)] *)
Definition model_to : M unit :=
  fun s => match model (self s) with
           | None => (Err AttributeError, s)
           | Some m =>
               match to_error m with
               | Some e => (Err e, s)
               | None =>
                   (Ok tt, mkState (mkEngine
                      (Some (mkPipeline (stages m) (params m) true (training m)))
                      (config (self s))) (world s))
               end
           end.

(** [self.model.eval()] *)
Definition model_eval : M unit :=
  fun s => match model (self s) with
           | None => (Err AttributeError, s)
           | Some m =>
               (Ok tt, mkState (mkEngine
                  (Some (mkPipeline (stages m) (params m) (placed m) false))
                  (config (self s))) (world s))
           end.

(** [load_model] *)
Definition load_model (config_path weights_path : string) : M unit :=
  c ← _load_config config_path;
  _ ← set_config c;
  e ← get_self;
  m ← lift (_build_model_from_config e);
  _ ← set_model (Some m);
  _ ← _load_weights weights_path;
  _ ← model_to;
  model_eval.

(** The loop of [_validate_input_shape] over the indices [i], [i+1], ... *)
Fixpoint validate_loop (shape : list nat) (expected_shape : json) (i : nat)
  : result bool :=
  match shape with
  | [] => Ok true
  | d :: rest =>
      x ← index expected_shape i;
      if negb (eq_int (Z.of_nat d) x) then Ok false
      else validate_loop rest expected_shape (S i)
  end.

(** [_validate_input_shape] *)
Definition _validate_input_shape (e : Engine) (shape : list nat) : result bool :=
  expected_shape ← getitem (config e) "input_shape";
  n ← len expected_shape;
  if negb (Nat.eqb (length shape) n) then Ok false
  else validate_loop (tl shape) expected_shape 1.

(** [predict]. The text of the shape error also shows the two shapes;
    only its fixed prefix is kept. [input_tensor.to(self.device)] is the
    identity on the tensor's value. *)
Definition predict (e : Engine) (input_tensor : Tensor Q) : result (Tensor Q) :=
  match model e with
  | None => Err (ValueError "Model not loaded")
  | Some m =>
      valid ← _validate_input_shape e (shape input_tensor);
      if negb valid then Err (ValueError "Invalid input shape")
      else forward m input_tensor
  end.

(** [predict_batch] *)
Fixpoint predict_batch (e : Engine) (inputs : list (Tensor Q))
  : result (list (Tensor Q)) :=
  match inputs with
  | [] => Ok []
  | input_tensor :: rest =>
      r ← predict e input_tensor;
      rs ← predict_batch e rest;
      Ok (r :: rs)
  end.

(** [predict_class] *)
Definition predict_class (e : Engine) (input_tensor : Tensor Q) : result (nat * Q) :=
  output ← predict e input_tensor;
  let probabilities := softmax fexp output in
  '(confidence, predicted_class) ← max_last probabilities;
  c ← item (squeeze predicted_class);
  p ← item (squeeze confidence);
  Ok (c, p).

(** [predict_class_name] *)
Definition predict_class_name (e : Engine) (input_tensor : Tensor Q)
  : result (json * Q) :=
  has ← contains "classes" (config e);
  if negb has then Err (ValueError "No class names defined in model config")
  else
    '(class_idx, confidence) ← predict_class e input_tensor;
    classes ← getitem (config e) "classes";
    class_name ← index classes class_idx;
    Ok (class_name, confidence).

(** [predict_top_k] *)
Definition predict_top_k (e : Engine) (input_tensor : Tensor Q) (k : Z)
  : result (nested nat * nested Q) :=
  output ← predict e input_tensor;
  let probabilities := softmax fexp output in
  '(top_probs, top_indices) ← topk probabilities k;
  Ok (tolist (squeeze top_indices), tolist (squeeze top_probs)).

(** [for _ in range(n): body] *)
Fixpoint repeat_ (n : nat) (body : M unit) : M unit :=
  match n with
  | O => ret tt
  | S n' => _ ← body; repeat_ n' body
  end.

(** [with torch.no_grad(): _ = self.model(x)] *)
Definition run_model (m : Pipeline StateDict) (x : Tensor Q) : M unit :=
  _ ← lift (forward m x); ret tt.

(** The sizes [torch.randn] accepts: non-negative integers. *)
Fixpoint sizes (dims : list json) : result (list nat) :=
  match dims with
  | [] => Ok []
  | JInt n :: rest =>
      if Z.ltb n 0 then Err RuntimeError
      else (r ← sizes rest; Ok (Z.to_nat n :: r))
  | _ :: _ => Err TypeError
  end.

(** [torch.randn] applied to the unpacked sizes. *)
Definition torch_randn (dims : list json) : result (Tensor Q) :=
  s ← sizes dims;
  Ok (mkTensor s (randn_data s)).

(** [[1] + v]: only a list can be appended to a list. *)
Definition one_plus (v : json) : result (list json) :=
  match v with
  | JList l => Ok (JInt 1 :: l)
  | _ => Err TypeError
  end.

(** [warmup] *)
Definition warmup (num_iterations : Z) : M Q :=
  e ← get_self;
  match model e return M Q with
  | None => raise (ValueError "Model not loaded")
  | Some m =>
      expected_shape ← lift (getitem (config e) "input_shape");
      rest ← lift (tail_slice expected_shape);
      dummy_shape ← lift (one_plus rest);
      dummy_input ← lift (torch_randn dummy_shape);
      start_time ← time;
      _ ← repeat_ (Z.to_nat num_iterations) (run_model m dummy_input);
      now ← time;
      let total_time := (now - start_time)%Q in
      if Z.eqb num_iterations 0 then raise ZeroDivisionError
      else ret (total_time / inject_Z num_iterations)%Q
  end.

(** The timed loop of [benchmark]: [times] accumulates the latencies. *)
Fixpoint timed_loop (n : nat) (m : Pipeline StateDict) (x : Tensor Q)
  (times : list Q) : M (list Q) :=
  match n with
  | O => ret times
  | S n' =>
      start_time ← time;
      _ ← run_model m x;
      now ← time;
      timed_loop n' m x (times ++ [(now - start_time)%Q])%list
  end.

(** [min(times)] and [max(times)]; both raise on an empty list. *)
Definition Qmin_ (a b : Q) : Q := if Qle_bool a b then a else b.
Definition Qmax_ (a b : Q) : Q := if Qle_bool a b then b else a.

Definition py_min (l : list Q) : result Q :=
  match l with
  | [] => Err (ValueError "min")
  | a :: l' => Ok (fold_left Qmin_ l' a)
  end.

Definition py_max (l : list Q) : result Q :=
  match l with
  | [] => Err (ValueError "max")
  | a :: l' => Ok (fold_left Qmax_ l' a)
  end.

(** [sum(times) / len(times)], in exact arithmetic. The doubles of the
    source round, so of this value only its existence is relied upon: the
    division raises on an empty list and on no other. *)
Definition py_mean (l : list Q) : result Q :=
  if Nat.eqb (length l) 0 then Err ZeroDivisionError
  else Ok (Qsum l / inject_Z (Z.of_nat (length l)))%Q.

(** The dict [benchmark] returns. *)
Record Stats : Type := mkStats {
  avg_time : Q;
  min_time : Q;
  max_time : Q;
  std_time : Q
}.

(** [benchmark] *)
Definition benchmark (input_tensor : Tensor Q) (num_runs : Z) : M Stats :=
  e ← get_self;
  match model e return M Stats with
  | None => raise (ValueError "Model not loaded")
  | Some m =>
      _ ← repeat_ 10 (run_model m input_tensor);
      times ← timed_loop (Z.to_nat num_runs) m input_tensor [];
      avg ← lift (py_mean times);
      lo ← lift (py_min times);
      hi ← lift (py_max times);
      ret (mkStats avg lo hi (std times))
  end.

(** [v.copy()]: dicts and lists have the method. *)
Definition py_copy (v : json) : result json :=
  match v with
  | JDict d => Ok (JDict d)
  | JList l => Ok (JList l)
  | _ => Err AttributeError
  end.

(** [get_model_info], on values. The sharing between the returned dict
    and [self.config] is the subject of [ModelInfo] below. *)
Definition get_model_info (e : Engine) : result json :=
  if truthy (config e) then py_copy (config e) else Ok (JDict []).

(** [save_model] *)
Definition save_model (weights_path : string) : M unit :=
  e ← get_self;
  match model e return M unit with
  | None => raise (ValueError "No model to save")
  | Some m => torch_save (params m) weights_path
  end.

End Engine.
End InferenceEngine.

(** ** Object identity: what [get_model_info] shares with [self.config]

    [dict.copy()] makes a new dict whose values are the same objects. To
    see what a caller can reach through the returned dict, lists and dicts
    live in a store and are referred to by address. *)

Module ModelInfo.

Inductive val : Type :=
| VNone
| VBool (b : bool)
| VInt (n : Z)
| VFloat (q : Q)
| VStr (s : string)
| VRef (a : nat).

Inductive obj : Type :=
| OList (items : list val)
| ODict (entries : list (string * val)).

(** The store, and the next address to hand out. *)
Record Store : Type := mkStore {
  objs : gmap nat obj;
  next : nat
}.

Definition new (o : obj) (st : Store) : val * Store :=
  (VRef (next st), mkStore (<[next st := o]> (objs st)) (S (next st))).

(** [json.load]: every list and every dict of the document becomes an
    object of its own. *)
Fixpoint load (j : json) (st : Store) : val * Store :=
  match j with
  | JNull => (VNone, st)
  | JBool b => (VBool b, st)
  | JInt n => (VInt n, st)
  | JFloat q => (VFloat q, st)
  | JStr s => (VStr s, st)
  | JList l =>
      let '(vs, st') :=
        (fix go (l : list json) (st : Store) : list val * Store :=
           match l with
           | [] => ([], st)
           | x :: r =>
               let '(v, st1) := load x st in
               let '(vs, st2) := go r st1 in
               (v :: vs, st2)
           end) l st in
      new (OList vs) st'
  | JDict d =>
      let '(es, st') :=
        (fix go (d : list (string * json)) (st : Store)
           : list (string * val) * Store :=
           match d with
           | [] => ([], st)
           | (k, x) :: r =>
               let '(v, st1) := load x st in
               let '(es, st2) := go r st1 in
               ((k, v) :: es, st2)
           end) d st in
      new (ODict es) st'
  end.

Fixpoint sequence {A} (l : list (option A)) : option (list A) :=
  match l with
  | [] => Some []
  | None :: _ => None
  | Some a :: l' =>
      match sequence l' with Some r => Some (a :: r) | None => None end
  end.

(** Reading a value back as the document it denotes. [fuel] bounds the
    nesting depth; a dangling address reads as [None]. *)
Fixpoint read (fuel : nat) (h : gmap nat obj) (v : val) : option json :=
  match v with
  | VNone => Some JNull
  | VBool b => Some (JBool b)
  | VInt n => Some (JInt n)
  | VFloat q => Some (JFloat q)
  | VStr s => Some (JStr s)
  | VRef a =>
      match fuel with
      | O => None
      | S fuel' =>
          match h !! a with
          | None => None
          | Some (OList vs) =>
              match sequence (List.map (read fuel' h) vs) with
              | Some js => Some (JList js)
              | None => None
              end
          | Some (ODict es) =>
              match sequence (List.map (fun kv =>
                        match read fuel' h (snd kv) with
                        | Some j => Some (fst kv, j)
                        | None => None
                        end) es) with
              | Some d => Some (JDict d)
              | None => None
              end
          end
      end
  end.

(** [bool(v)] *)
Definition truthy (h : gmap nat obj) (v : val) : bool :=
  match v with
  | VNone => false
  | VBool b => b
  | VInt n => negb (Z.eqb n 0)
  | VFloat q => negb (Qeq_bool q 0)
  | VStr s => negb (String.eqb s "")
  | VRef a =>
      match h !! a with
      | Some (OList []) | Some (ODict []) => false
      | _ => true
      end
  end.

(** [get_model_info], with [config] the value of [self.config]: a truthy
    dict or list is copied one level deep into a new object, whose items
    are the items of the original; a falsy config gives a new empty
    dict. *)
Definition get_model_info (config : val) (st : Store) : result val * Store :=
  if truthy (objs st) config then
    match config with
    | VRef a =>
        match objs st !! a with
        | Some o => let '(r, st') := new o st in (Ok r, st')
        | None => (Err AttributeError, st)
        end
    | _ => (Err AttributeError, st)
    end
  else let '(r, st') := new (ODict []) st in (Ok r, st').

(** What a caller can do to an object it holds. *)
Inductive mutation : Type :=
| DictSet (k : string) (v : val)
| DictDel (k : string)
| DictClear
| ListAppend (v : val)
| ListSet (i : nat) (v : val)
| ListClear.

Fixpoint dict_set (k : string) (v : val) (es : list (string * val))
  : list (string * val) :=
  match es with
  | [] => [(k, v)]
  | (k', v') :: r =>
      if String.eqb k k' then (k, v) :: r else (k', v') :: dict_set k v r
  end.

Definition dict_del (k : string) (es : list (string * val))
  : list (string * val) :=
  List.filter (fun kv => negb (String.eqb k (fst kv))) es.

(** Applying a mutation to the object at address [a]; one that does not
    fit the object raises and changes nothing. *)
Definition mutate (a : nat) (mu : mutation) (h : gmap nat obj)
  : gmap nat obj :=
  match h !! a, mu with
  | Some (ODict es), DictSet k v => <[a := ODict (dict_set k v es)]> h
  | Some (ODict es), DictDel k => <[a := ODict (dict_del k es)]> h
  | Some (ODict _), DictClear => <[a := ODict []]> h
  | Some (OList vs), ListAppend v => <[a := OList (vs ++ [v])%list]> h
  | Some (OList vs), ListSet i v => <[a := OList (<[i := v]> vs)]> h
  | Some (OList _), ListClear => <[a := OList []]> h
  | _, _ => h
  end.

(** [d[k]] on the dict a value refers to. *)
Definition lookup_key (h : gmap nat obj) (v : val) (k : string) : option val :=
  match v with
  | VRef a =>
      match h !! a with
      | Some (ODict es) => assoc k es
      | _ => None
      end
  | _ => None
  end.

End ModelInfo.

(** ** A small tensor library to run the engine on

    An [External] that provides only the parameter-free kernels [Flatten]
    and [ReLU]; any other stage is refused by [forward]. It serves to
    execute the engine on concrete inputs. Its exponential is a positive
    rational function, and its clock advances by one per reading. *)

Module Reference.

Definition flatten_shape (s : list nat) : list nat :=
  match s with
  | [] => [1%nat]
  | [b] => [b]
  | b :: rest => [b; numel_of rest]
  end.

Definition Qrelu (x : Q) : Q := if Qle_bool 0 x then x else 0%Q.

Definition apply_stage (m : nnModule) (x : Tensor Q) : result (Tensor Q) :=
  match m with
  | Flatten => Ok (mkTensor (flatten_shape (shape x)) (data x))
  | ReLU => Ok (mkTensor (shape x) (List.map Qrelu (data x)))
  | _ => Err RuntimeError
  end.

Fixpoint apply_stages (ms : list nnModule) (x : Tensor Q) : result (Tensor Q) :=
  match ms with
  | [] => Ok x
  | m :: ms' => y ← apply_stage m x; apply_stages ms' y
  end.

Definition ref_forward (p : Pipeline (list Q)) (x : Tensor Q) : result (Tensor Q) :=
  apply_stages (stages p) x.

Definition ref_exp (x : Q) : Q :=
  if Qle_bool 0 x then (1 + x)%Q else (1 / (1 - x))%Q.

Definition ref_init (m : nnModule) : option pyerr :=
  match m with
  | Linear i o => if Z.ltb i 0 || Z.ltb o 0 then Some RuntimeError else None
  | Dropout p =>
      if Qle_bool 0 p && Qle_bool p 1 then None else Some (ValueError "dropout")
  | BatchNorm1d n => if Z.ltb n 0 then Some RuntimeError else None
  | _ => None
  end.

Lemma flatten_numel (s : list nat) : numel_of (flatten_shape s) = numel_of s.
Proof.
  destruct s as [|b [|c rest]]; simpl; lia.
Qed.

Lemma apply_stage_wf m x y : wf x -> apply_stage m x = Ok y -> wf y.
Proof.
  unfold wf; intros Hx H; destruct m; simpl in H; try discriminate;
    injection H as <-; simpl.
  - now rewrite flatten_numel.
  - now rewrite length_map.
Qed.

Lemma apply_stages_wf ms : forall x y, wf x -> apply_stages ms x = Ok y -> wf y.
Proof.
  induction ms as [|m ms IH]; simpl; intros x y Hx H.
  - now injection H as <-.
  - destruct (apply_stage m x) as [z|] eqn:E; simpl in H; try discriminate.
    eapply IH; [eapply apply_stage_wf; eauto | exact H].
Qed.

Lemma ref_exp_pos x : (0 < ref_exp x)%Q.
Proof.
  unfold ref_exp. destruct (Qle_bool 0 x) eqn:E.
  - apply Qle_bool_iff in E.
    apply Qlt_le_trans with (1 + 0)%Q; [reflexivity|].
    apply Qplus_le_r; exact E.
  - assert (Hx : (x < 0)%Q).
    { apply Qnot_le_lt. intro H. apply Qle_bool_iff in H. congruence. }
    unfold Qdiv. rewrite Qmult_1_l. apply Qinv_lt_0_compat.
    unfold Qminus. rewrite <- (Qplus_opp_r x).
    apply Qplus_lt_l. apply Qlt_trans with 0%Q; [exact Hx | reflexivity].
Qed.

Lemma ref_randn_length (s : list nat) : length (repeat 0%Q (numel_of s)) = numel_of s.
Proof. apply repeat_length. Qed.

#[export] Instance ref : External := {|
  StateDict := list Q;
  nn_init := ref_init;
  default_state := fun _ => [];
  load_state_dict := fun _ sd => (sd, None);
  to_error := fun _ => None;
  save_error := fun _ => None;
  forward := ref_forward;
  forward_wf := fun m x y => apply_stages_wf (stages m) x y;
  fexp := ref_exp;
  fexp_pos := ref_exp_pos;
  randn_data := fun s => repeat 0%Q (numel_of s);
  randn_length := ref_randn_length;
  std := fun _ => 0%Q;
  int_of_str := fun _ => None;
  float_of_str := fun _ => None;
  clock := fun n => inject_Z (Z.of_nat n)
|}.







End Reference.

(** * Predicates used in the statements *)

Section Predicates.
Context `{Ext : External}.
Import InferenceEngine.

(** The acceptance condition of the specification: equal rank, and equal
    sizes at every index from 1 on; index 0 is not looked at. *)
Definition shape_accepted (shape : list nat) (expected : list Z) : Prop :=
  length shape = length expected /\
  forall i, (1 <= i < length shape)%nat ->
    Z.of_nat (nth i shape 0%nat) = nth i expected 0.

(** The closed set of layer types [_create_layer] dispatches on. *)
Definition recognized_name (s : string) : bool :=
  String.eqb "Dense" s || String.eqb "Conv2D" s || String.eqb "MaxPool2D" s ||
  String.eqb "Flatten" s || String.eqb "Dropout" s || String.eqb "BatchNorm" s.

Definition recognized (t : json) : bool :=
  match t with
  | JStr s => recognized_name s
  | _ => false
  end.

Definition layer_recognized (l : json) : bool :=
  match getitem l "type" with
  | Ok t => recognized t
  | Err _ => false
  end.


(** What a failed [load_model] leaves behind, from state [s] to [s']:
    either the config could not be read and the engine is untouched, or
    the new config is installed, next to the previous pipeline when the
    build failed, or next to the newly built pipeline, still in training
    mode and not placed, when a later step failed. *)
Definition load_failure_outcome (config_path : string) (s s' : State)
  (err : pyerr) : Prop :=
  world s' = world s /\
  ((fst (_load_config config_path s) = Err err /\ self s' = self s) \/
   (exists c, fst (_load_config config_path s) = Ok c /\
      config (self s') = c /\
      ((_build_model_from_config (mkEngine (model (self s)) c) = Err err /\
        model (self s') = model (self s)) \/
       (exists m m',
          _build_model_from_config (mkEngine (model (self s)) c) = Ok m /\
          model (self s') = Some m' /\ stages m' = stages m /\
          placed m' = false /\ training m' = true)))).

(** The names [_create_activation] knows. *)
Definition activation_names : list string :=
  ["ReLU"; "Sigmoid"; "Tanh"; "Softmax"; "GELU"].

(** The latencies of [n] timed passes that start at clock reading [t]:
    each pass is framed by two readings. *)
Fixpoint latencies (t n : nat) : list Q :=
  match n with
  | O => []
  | S n' => (clock (S t) - clock t)%Q :: latencies (S (S t)) n'
  end.

End Predicates.

(** * Concrete inputs

    The executions further down run on the small tensor library
    [Reference.ref]. The pipelines in them hold a [Flatten] stage only, or
    are never run. *)

Section Inputs.
Import InferenceEngine Reference.

(** A config with a single [Flatten] layer, and a world holding it next to
    a native weights file and a JSON weights file. *)
Definition flatten_config : json :=
  JDict [("input_shape", JList [JInt 1; JInt 3]);
         ("layers",
          JList [JDict [("type", JStr "Flatten"); ("params", JDict [])]])].

(** A config whose only layer is a [Dense] without its sizes. *)
Definition broken_config : json :=
  JDict [("input_shape", JList [JInt 1; JInt 3]);
         ("layers",
          JList [JDict [("type", JStr "Dense"); ("params", JDict [])]])].

Definition world0 : World :=
  mkWorld (<["config.json" := JsonText flatten_config]>
           (<["broken.json" := JsonText broken_config]>
            (<["weights.pth" := NativeBlob []]>
             (<["weights.json" := JsonText (JDict [])]> ∅)))) 0.

Definition flatten_pipeline : Pipeline (list Q) :=
  mkPipeline [Flatten] [] true false.

(** The engine after [load_model("config.json", "weights.pth")]. *)
Definition loaded : Engine := mkEngine (Some flatten_pipeline) flatten_config.

Definition row3 : Tensor Q := mkTensor [1%nat; 3%nat] [1%Q; 3%Q; 2%Q].
Definition rows23 : Tensor Q :=
  mkTensor [2%nat; 3%nat] [1%Q; 3%Q; 2%Q; 5%Q; 4%Q; 6%Q].
Definition row10 : Tensor Q := mkTensor [1%nat; 10%nat] (repeat 0%Q 10).

(** The layers of the sample config of the source, with a layer of an
    unknown type in between. *)
Definition sample_layers : list json :=
  [JDict [("type", JStr "Dense"); ("name", JStr "fc1");
          ("params", JDict [("input_size", JInt 784); ("output_size", JInt 128);
                            ("activation", JStr "ReLU")])];
   JDict [("type", JStr "Dropout"); ("name", JStr "dropout1");
          ("params", JDict [("rate", JFloat (1 # 5))])];
   JDict [("type", JStr "LayerNorm"); ("params", JDict [("size", JInt 128)])];
   JDict [("type", JStr "Dense"); ("name", JStr "fc2");
          ("params", JDict [("input_size", JInt 128); ("output_size", JInt 10);
                            ("activation", JStr "Softmax")])]].

Definition sample_config : json :=
  JDict [("version", JStr "1.0"); ("model_type", JStr "classification");
         ("input_shape", JList [JInt 1; JInt 784]);
         ("output_shape", JList [JInt 10]);
         ("layers", JList sample_layers)].

Definition unknown_layer : json :=
  JDict [("type", JStr "LayerNorm"); ("params", JDict [("size", JStr "many")])].
Definition dense_without_sizes : json :=
  JDict [("type", JStr "Dense"); ("params", JDict [])].

(** A config with class names, to be loaded as an object graph. *)
Definition shared_config : json :=
  JDict [("input_shape", JList [JInt 1; JInt 3]);
         ("classes", JList [JStr "a"; JStr "b"; JStr "c"]);
         ("layers",
          JList [JDict [("type", JStr "Flatten"); ("params", JDict [])]])].

Definition store1 : ModelInfo.Store :=
  snd (ModelInfo.load shared_config (ModelInfo.mkStore ∅ 0)).
Definition config_ref : ModelInfo.val :=
  fst (ModelInfo.load shared_config (ModelInfo.mkStore ∅ 0)).
Definition store2 : ModelInfo.Store :=
  snd (ModelInfo.get_model_info config_ref store1).

(** A world that also holds a native weights file with two parameters. *)
Definition world1 : World :=
  mkWorld (<["trained.pth" := NativeBlob [1%Q; 2%Q]]> (files world0)) 0.

(** The engine after [load_model("config.json", "trained.pth")]. *)
Definition trained : Engine :=
  mkEngine (Some (mkPipeline [Flatten] [1%Q; 2%Q] true false)) flatten_config.

Definition flatten_layer : json :=
  JDict [("type", JStr "Flatten"); ("params", JDict [])].

(** A [Dense] layer with a known activation, and one with a name
    [_create_activation] does not know. *)
Definition dense_relu_params : list (string * json) :=
  [("input_size", JInt 4); ("output_size", JInt 2); ("activation", JStr "ReLU")].
Definition dense_swish_params : list (string * json) :=
  [("input_size", JInt 4); ("output_size", JInt 2); ("activation", JStr "Swish")].
Definition dense_relu : json :=
  JDict [("type", JStr "Dense"); ("params", JDict dense_relu_params)].
Definition dense_swish : json :=
  JDict [("type", JStr "Dense"); ("params", JDict dense_swish_params)].

(** A loaded engine whose config names its classes, and one whose sizes
    are written as a float and a boolean. *)
Definition named_entries : list (string * json) :=
  [("input_shape", JList [JInt 1; JInt 3]);
   ("classes", JList [JStr "a"; JStr "b"; JStr "c"])].
Definition named : Engine := mkEngine (Some flatten_pipeline) (JDict named_entries).
Definition loose_shape : list json := [JStr "batch"; JFloat 3].
Definition loose : Engine :=
  mkEngine (Some flatten_pipeline) (JDict [("input_shape", JList loose_shape)]).


End Inputs.

(** * Facts about the tensor operations *)

Section TensorFacts.

Lemma length_chunks {A} (n c : nat) (l : list A) : length (chunks n c l) = n.
Proof.
  revert l. induction n as [|n IH]; intros l; simpl; [reflexivity|].
  now rewrite IH.
Qed.

Lemma chunks_row_length {A} (n c : nat) (l : list A) :
  length l = (n * c)%nat -> Forall (fun r => length r = c) (chunks n c l).
Proof.
  revert l. induction n as [|n IH]; intros l Hl; simpl; constructor.
  - rewrite length_firstn. simpl in Hl. lia.
  - apply IH. rewrite length_skipn. simpl in Hl. lia.
Qed.

Lemma length_concat_rows {A} (rs : list (list A)) (c : nat) :
  Forall (fun r => length r = c) rs -> length (concat rs) = (length rs * c)%nat.
Proof.
  induction 1 as [|r rs Hr _ IH]; simpl; [reflexivity|].
  rewrite length_app, IH, Hr. reflexivity.
Qed.

Lemma chunks_single {A} (c : nat) (l : list A) :
  length l = c -> chunks 1 c l = [l].
Proof.
  intros <-. simpl. now rewrite firstn_all.
Qed.

Lemma chunks_by_one {A} (l : list A) :
  chunks (length l) 1 l = List.map (fun a => [a]) l.
Proof.
  induction l as [|a l IH]; [reflexivity|].
  change (chunks (length (a :: l)) 1 (a :: l)) with ([a] :: chunks (length l) 1 l).
  rewrite IH. reflexivity.
Qed.

Lemma tolist_vector {A} (d : list A) :
  tolist (mkTensor [length d] d) = Nested (List.map Scalar d).
Proof.
  unfold tolist. simpl. rewrite chunks_by_one, List.map_map. reflexivity.
Qed.

Lemma tolist_vector_len {A} (k : nat) (d : list A) :
  length d = k -> tolist (mkTensor [k] d) = Nested (List.map Scalar d).
Proof. intros <-. apply tolist_vector. Qed.

Lemma length_insert_desc (x : Q * nat) (l : list (Q * nat)) :
  length (insert_desc x l) = S (length l).
Proof.
  induction l as [|y l IH]; simpl; [reflexivity|].
  destruct (Qle_bool (fst y) (fst x)); simpl; [reflexivity|]. now rewrite IH.
Qed.

Lemma length_sort_desc (l : list (Q * nat)) : length (sort_desc l) = length l.
Proof.
  induction l as [|x l IH]; simpl; [reflexivity|].
  now rewrite length_insert_desc, IH.
Qed.

Lemma length_indexed (row : list Q) : length (indexed row) = length row.
Proof.
  unfold indexed. rewrite length_combine, length_seq. lia.
Qed.

Lemma length_row_topk (k : nat) (row : list Q) :
  length (row_topk k row) = Nat.min k (length row).
Proof.
  unfold row_topk. now rewrite length_firstn, length_sort_desc, length_indexed.
Qed.

Lemma in_insert_desc (x y : Q * nat) (l : list (Q * nat)) :
  In y (insert_desc x l) -> y = x \/ In y l.
Proof.
  induction l as [|z l IH]; simpl.
  - intros [<-|[]]. now left.
  - destruct (Qle_bool (fst z) (fst x)); simpl.
    + intros [<-|H]; [now left | now right].
    + intros [<-|H]; [right; now left|].
      destruct (IH H) as [->|H']; [now left | right; now right].
Qed.

Lemma in_sort_desc (y : Q * nat) (l : list (Q * nat)) :
  In y (sort_desc l) -> In y l.
Proof.
  induction l as [|x l IH]; simpl; [tauto|].
  intros H. apply in_insert_desc in H. destruct H as [->|H]; [now left|].
  right. now apply IH.
Qed.

Lemma in_firstn {A} (k : nat) (l : list A) (x : A) :
  In x (firstn k l) -> In x l.
Proof.
  revert k. induction l as [|b l IH]; intros [|k]; simpl; try tauto.
  intros [<-|H]; [now left | right; eapply IH; eassumption].
Qed.

Lemma in_row_topk (k : nat) (row : list Q) (v : Q) (i : nat) :
  In (v, i) (row_topk k row) -> In v row /\ (i < length row)%nat.
Proof.
  unfold row_topk, indexed. intros H.
  apply in_firstn in H.
  apply in_sort_desc in H. split.
  - eapply in_combine_l; eassumption.
  - apply in_combine_r in H. apply in_seq in H. lia.
Qed.

Lemma insert_desc_sorted (x : Q * nat) (l : list (Q * nat)) :
  StronglySorted desc l -> StronglySorted desc (insert_desc x l).
Proof.
  induction 1 as [|y l Hs IH Hy]; simpl.
  - constructor; constructor.
  - destruct (Qle_bool (fst y) (fst x)) eqn:E.
    + apply Qle_bool_iff in E. constructor.
      * constructor; assumption.
      * constructor; [exact E|].
        eapply List.Forall_impl; [|exact Hy]. unfold desc. intros z Hz.
        eapply Qle_trans; eassumption.
    + assert (Hxy : (fst x <= fst y)%Q).
      { apply Qlt_le_weak, Qnot_le_lt. intros H.
        apply Qle_bool_iff in H. congruence. }
      constructor; [exact IH|].
      apply List.Forall_forall. intros z Hz. apply in_insert_desc in Hz.
      destruct Hz as [->|Hz]; [exact Hxy|].
      rewrite List.Forall_forall in Hy. now apply Hy.
Qed.

Lemma sort_desc_sorted (l : list (Q * nat)) : StronglySorted desc (sort_desc l).
Proof.
  induction l as [|x l IH]; simpl; [constructor|].
  now apply insert_desc_sorted.
Qed.

Lemma sorted_firstn {A} (R : A -> A -> Prop) (k : nat) (l : list A) :
  StronglySorted R l -> StronglySorted R (firstn k l).
Proof.
  intros H. revert k. induction H as [|a l Hs IH Ha]; intros [|k]; simpl;
    try constructor.
  - apply IH.
  - apply List.Forall_forall. intros z Hz.
    rewrite List.Forall_forall in Ha. apply Ha.
    eapply in_firstn; eassumption.
Qed.

Lemma sorted_values (l : list (Q * nat)) :
  StronglySorted desc l ->
  StronglySorted (fun a b => (b <= a)%Q) (List.map fst l).
Proof.
  induction 1 as [|a l Hs IH Ha]; simpl; constructor; [exact IH|].
  apply List.Forall_forall. intros v Hv. apply in_map_iff in Hv.
  destruct Hv as (z & <- & Hz). rewrite List.Forall_forall in Ha.
  exact (Ha z Hz).
Qed.

Lemma row_topk_sorted (k : nat) (row : list Q) :
  StronglySorted (fun a b => (b <= a)%Q) (List.map fst (row_topk k row)).
Proof.
  apply sorted_values, sorted_firstn, sort_desc_sorted.
Qed.

Lemma Qsum_ge_elem (l : list Q) (e : Q) :
  List.Forall (fun x => 0 <= x)%Q l -> In e l -> (e <= Qsum l)%Q.
Proof.
  induction 1 as [|x l Hx Hl IH]; simpl; [tauto|].
  assert (Hs : (0 <= Qsum l)%Q).
  { clear IH. induction Hl as [|y l Hy _ IH]; simpl; [apply Qle_refl|].
    rewrite <- (Qplus_0_r 0). now apply Qplus_le_compat. }
  intros [<-|Hin].
  - rewrite <- (Qplus_0_r x) at 1. apply Qplus_le_compat; [apply Qle_refl | exact Hs].
  - rewrite <- (Qplus_0_l e). apply Qplus_le_compat; [exact Hx | now apply IH].
Qed.

Lemma length_softmax_row (f : Q -> Q) (row : list Q) :
  length (softmax_row f row) = length row.
Proof. unfold softmax_row. now rewrite !length_map. Qed.

Lemma softmax_row_range (f : Q -> Q) (row : list Q) (p : Q) :
  (forall x, 0 < f x)%Q -> In p (softmax_row f row) -> (0 <= p <= 1)%Q.
Proof.
  intros Hf. unfold softmax_row. intros Hp.
  apply in_map_iff in Hp. destruct Hp as (e & <- & He).
  assert (Hall : List.Forall (fun x => 0 <= x)%Q (List.map f row)).
  { apply List.Forall_forall. intros y Hy. apply in_map_iff in Hy.
    destruct Hy as (x & <- & _). apply Qlt_le_weak, Hf. }
  pose proof (Qsum_ge_elem _ e Hall He) as Hle.
  assert (He0 : (0 < e)%Q).
  { apply in_map_iff in He. destruct He as (x & <- & _). apply Hf. }
  assert (Hs : (0 < Qsum (List.map f row))%Q) by (eapply Qlt_le_trans; eassumption).
  split.
  - apply Qle_shift_div_l; [exact Hs|]. rewrite Qmult_0_l. now apply Qlt_le_weak.
  - apply Qle_shift_div_r; [exact Hs|]. now rewrite Qmult_1_l.
Qed.

Lemma rows_2d {A} (t : Tensor A) (b c : nat) :
  shape t = [b; c] -> rows t = chunks b c (data t).
Proof.
  intros Hs. unfold rows. rewrite Hs. simpl. now rewrite Nat.mul_1_r.
Qed.

Lemma wf_2d {A} (t : Tensor A) (b c : nat) :
  wf t -> shape t = [b; c] -> length (data t) = (b * c)%nat.
Proof.
  unfold wf. intros -> ->. simpl. now rewrite Nat.mul_1_r.
Qed.

(** [softmax] keeps the shape and the number of elements, and every
    element of its result lies between 0 and 1. *)
Lemma softmax_2d (f : Q -> Q) (t : Tensor Q) (b c : nat) :
  (forall x, 0 < f x)%Q -> wf t -> shape t = [b; c] ->
  shape (softmax f t) = [b; c] /\
  length (data (softmax f t)) = (b * c)%nat /\
  (forall p, In p (data (softmax f t)) -> (0 <= p <= 1)%Q).
Proof.
  intros Hf Hwf Hs. split; [exact Hs|]. unfold softmax. cbn [data].
  rewrite (rows_2d t b c Hs).
  pose proof (chunks_row_length b c (data t) (wf_2d t b c Hwf Hs)) as Hrows.
  split.
  - rewrite (length_concat_rows _ c).
    + now rewrite length_map, length_chunks.
    + apply List.Forall_forall. intros r Hr. apply in_map_iff in Hr.
      destruct Hr as (r0 & <- & Hr0). rewrite length_softmax_row.
      rewrite List.Forall_forall in Hrows. now apply Hrows.
  - intros p Hp. apply in_concat in Hp. destruct Hp as (r & Hr & Hp).
    apply in_map_iff in Hr. destruct Hr as (r0 & <- & _).
    eapply softmax_row_range; eassumption.
Qed.

Lemma item_of_several {A} (t : Tensor A) :
  (2 <= length (data t))%nat -> item t = Err RuntimeError.
Proof.
  unfold item. destruct (data t) as [|a [|a' l]]; simpl; intros H;
    [lia | lia | reflexivity].
Qed.

(** [max] along the last dimension of a [b] by [c] tensor holds one value
    and one index per row. *)
Lemma max_last_2d (t : Tensor Q) (b c : nat) :
  shape t = [b; c] -> length (data t) = (b * c)%nat -> (1 <= c)%nat ->
  exists v i, max_last t = Ok (v, i) /\
    length (data v) = b /\ length (data i) = b.
Proof.
  intros Hs Hlen Hc. unfold max_last. rewrite (rows_2d t b c Hs), Hs.
  cbn [last_dim List.last]. destruct (Nat.eqb_spec c 0) as [->|_]; [lia|].
  eexists _, _. split; [reflexivity|]. cbn [data].
  pose proof (chunks_row_length b c (data t) Hlen) as Hrows.
  assert (Hone : forall (B : Type) (g : Q * nat -> B),
    List.Forall (fun r => length r = 1%nat)
      (List.map (List.map g) (List.map (row_topk 1) (chunks b c (data t))))).
  { intros B g. apply List.Forall_forall. intros r Hr.
    apply in_map_iff in Hr. destruct Hr as (r1 & <- & Hr1).
    apply in_map_iff in Hr1. destruct Hr1 as (r0 & <- & Hr0).
    rewrite length_map, length_row_topk.
    rewrite List.Forall_forall in Hrows. rewrite (Hrows r0 Hr0). lia. }
  split; rewrite (length_concat_rows _ 1 (Hone _ _));
    rewrite !length_map, length_chunks; lia.
Qed.

(** [topk] on a single row. *)
Lemma topk_single_row (t : Tensor Q) (c k : nat) :
  shape t = [1%nat; c] -> length (data t) = c -> (k <= c)%nat ->
  topk t (Z.of_nat k)
  = Ok (mkTensor [1%nat; k] (List.map fst (row_topk k (data t))),
        mkTensor [1%nat; k] (List.map snd (row_topk k (data t)))).
Proof.
  intros Hs Hlen Hk. unfold topk. rewrite (rows_2d t 1 c Hs), Hs.
  cbn [last_dim List.last].
  destruct (Z.ltb_spec (Z.of_nat k) 0) as [H|_]; [lia|].
  destruct (Z.ltb_spec (Z.of_nat c) (Z.of_nat k)) as [H|_]; [lia|].
  cbn [orb]. rewrite Nat2Z.id, (chunks_single c (data t) Hlen).
  simpl. now rewrite !app_nil_r.
Qed.

Lemma topk_too_large (t : Tensor Q) (k : Z) :
  Z.of_nat (last_dim (shape t)) < k -> topk t k = Err RuntimeError.
Proof.
  intros H. unfold topk.
  destruct (Z.ltb_spec (Z.of_nat (last_dim (shape t))) k) as [_|H']; [|lia].
  now rewrite orb_true_r.
Qed.

Lemma topk_in_range (t : Tensor Q) (k : Z) :
  0 <= k <= Z.of_nat (last_dim (shape t)) -> is_ok (topk t k) = true.
Proof.
  intros H. unfold topk.
  destruct (Z.ltb_spec k 0) as [H'|_]; [lia|].
  destruct (Z.ltb_spec (Z.of_nat (last_dim (shape t))) k) as [H'|_]; [lia|].
  reflexivity.
Qed.

End TensorFacts.

(** * Properties of the engine *)

Section Properties.
Context `{Ext : External}.
Import InferenceEngine.

(** Unfolding the two monads down to pattern matching. *)
Ltac unmonad :=
  unfold mbind, mret, M_bind, M_ret, result_bind, result_ret, bind, ret, raise,
    lift, get_self, set_config, set_model, rbind in *; simpl in *.

Lemma sizes_of_nats (ds : list nat) :
  sizes (List.map (fun n => JInt (Z.of_nat n)) ds) = Ok ds.
Proof.
  induction ds as [|d ds IH]; [reflexivity|].
  simpl. destruct (Z.ltb_spec (Z.of_nat d) 0) as [H|_]; [lia|].
  rewrite IH. unmonad. now rewrite Nat2Z.id.
Qed.

(** C3, as the code has it. On an engine without a model, whatever its
    config: [predict], [predict_class] and [predict_top_k] raise "Model not
    loaded" for every input and every [k]; [predict_batch] raises it for
    every non-empty list and returns the empty list for the empty one;
    [warmup] and [benchmark] raise it for every argument and leave the
    engine and the world as they were; [save_model] raises "No model to
    save". *)
Theorem unloaded_operations_raise (c : json) (w : World) :
  let e := mkEngine None c in
  let s := mkState e w in
  (forall x, predict e x = Err (ValueError "Model not loaded")) /\
  (forall x xs, predict_batch e (x :: xs) = Err (ValueError "Model not loaded")) /\
  predict_batch e [] = Ok [] /\
  (forall x, predict_class e x = Err (ValueError "Model not loaded")) /\
  (forall x k, predict_top_k e x k = Err (ValueError "Model not loaded")) /\
  (forall n, warmup n s = (Err (ValueError "Model not loaded"), s)) /\
  (forall x n, benchmark x n s = (Err (ValueError "Model not loaded"), s)) /\
  (forall p, save_model p s = (Err (ValueError "No model to save"), s)).
Proof.
  cbv zeta. repeat split; intros; reflexivity.
Qed.


(** C10. On a loaded engine whose [input_shape] is a list of sizes,
    [warmup(0)] raises [ZeroDivisionError]. [benchmark(x, 0)] never
    returns statistics: when the ten warm-up passes succeed it raises
    [ZeroDivisionError] on the empty list of timings, and otherwise it
    raises what the forward pass raised. *)
Theorem zero_iterations_raise (e : Engine) (m : Pipeline StateDict) (w : World)
  (dims : list nat) :
  model e = Some m ->
  getitem (config e) "input_shape"
    = Ok (JList (List.map (fun n => JInt (Z.of_nat n)) dims)) ->
  fst (warmup 0 (mkState e w)) = Err ZeroDivisionError /\
  (forall x y, forward m x = Ok y ->
     fst (benchmark x 0 (mkState e w)) = Err ZeroDivisionError) /\
  (forall x, is_ok (fst (benchmark x 0 (mkState e w))) = false).
Proof.
  intros Hm Hshape. split; [|split].
  - unfold warmup. unmonad. rewrite Hm, Hshape. simpl.
    unfold torch_randn. unmonad.
    replace (tail (List.map (fun n => JInt (Z.of_nat n)) dims))
      with (List.map (fun n => JInt (Z.of_nat n)) (tail dims))
      by (destruct dims; reflexivity).
    rewrite sizes_of_nats. reflexivity.
  - intros x y Hf. unfold benchmark, run_model. unmonad. rewrite Hm, Hf.
    reflexivity.
  - intros x. unfold benchmark, run_model. unmonad. rewrite Hm.
    destruct (forward m x) as [y|err]; reflexivity.
Qed.

Lemma build_is_fresh (e : Engine) (m : Pipeline StateDict) :
  _build_model_from_config e = Ok m -> placed m = false /\ training m = true.
Proof.
  unfold _build_model_from_config. unmonad.
  destruct (getitem (config e) "layers") as [d|]; simpl; try discriminate.
  destruct (iter d) as [items|]; simpl; try discriminate.
  destruct (build_loop items []) as [ls|]; simpl; try discriminate.
  intros [= <-]. split; reflexivity.
Qed.

(** C1, as the code has it. A failure of [load_model] while reading the
    config leaves the engine unchanged. A failure at any later step
    leaves the newly read config in [self.config]; [self.model] is then
    the previous pipeline (or none) if the build failed, and the newly
    built pipeline, neither placed nor in inference mode, if binding the
    weights or placing the pipeline failed. The file system and the clock
    are untouched. *)
Theorem load_model_failure (config_path weights_path : string) (s s' : State)
  (err : pyerr) :
  load_model config_path weights_path s = (Err err, s') ->
  load_failure_outcome config_path s s' err.
Proof.
  unfold load_model, load_failure_outcome, _load_config, read_json. unmonad.
  destruct (files (world s) !! config_path) as [[sd|c|]|] eqn:Hc; simpl;
    try (intros [= <- <-]; split; [reflexivity | left; split; reflexivity]).
  destruct (_build_model_from_config (mkEngine (model (self s)) c))
    as [m|e1] eqn:Hb; simpl.
  2: { intros [= <- <-]. split; [reflexivity|]. right. exists c.
       split; [reflexivity|split; [reflexivity|]]. left. split; [exact Hb|reflexivity]. }
  destruct (build_is_fresh _ _ Hb) as [Hp Ht].
  unfold _load_weights, try_except, torch_load, read_json,
    model_load_state_dict, _load_weights_from_json, model_to, model_eval.
  unmonad.
  destruct (files (world s) !! weights_path) as [[sd|j|]|] eqn:Hw; simpl.
  - destruct (load_state_dict m sd) as [p' [e2|]] eqn:Hl; simpl; rewrite ?Hw; simpl.
    + intros [= <- <-]. split; [reflexivity|]. right. exists c.
      split; [reflexivity|split; [reflexivity|]].
      right. eexists m, _. repeat split; simpl; auto.
    + destruct (to_error _) as [e3|]; simpl.
      * intros [= <- <-]. split; [reflexivity|]. right. exists c.
        split; [reflexivity|split; [reflexivity|]].
      right. eexists m, _. repeat split; simpl; auto.
      * discriminate.
  - rewrite Hw. simpl. destruct (to_error m) as [e3|]; simpl.
    + intros [= <- <-]. split; [reflexivity|]. right. exists c.
      split; [reflexivity|split; [reflexivity|]].
      right. eexists m, _. repeat split; simpl; auto.
    + discriminate.
  - rewrite Hw. simpl. intros [= <- <-]. split; [reflexivity|]. right. exists c.
    split; [reflexivity|split; [reflexivity|]].
    right. eexists m, _. repeat split; simpl; auto.
  - rewrite Hw. simpl. intros [= <- <-]. split; [reflexivity|]. right. exists c.
    split; [reflexivity|split; [reflexivity|]].
    right. eexists m, _. repeat split; simpl; auto.
Qed.

Lemma index_of_ints (expected : list Z) (i : nat) :
  (i < length expected)%nat ->
  index (JList (List.map JInt expected)) i = Ok (JInt (nth i expected 0)).
Proof.
  intros Hi. simpl.
  rewrite (nth_error_nth' (List.map JInt expected) (JInt 0))
    by (now rewrite length_map).
  now rewrite (map_nth JInt expected 0 i).
Qed.

Lemma validate_loop_spec (expected : list Z) (sh : list nat) :
  forall i, (i + length sh = length expected)%nat ->
  exists b, validate_loop sh (JList (List.map JInt expected)) i = Ok b /\
    (b = true <->
     forall j, (j < length sh)%nat ->
       Z.of_nat (nth j sh 0%nat) = nth (i + j) expected 0).
Proof.
  induction sh as [|d sh IH]; intros i Hlen.
  - exists true. split; [reflexivity|]. split; [|reflexivity].
    intros _ j Hj. simpl in Hj. lia.
  - simpl in Hlen. cbn [validate_loop].
    rewrite index_of_ints by lia.
    unfold mbind, result_bind, rbind. cbn [eq_int].
    destruct (Z.eqb_spec (Z.of_nat d) (nth i expected 0)) as [Heq|Hne]; cbn [negb].
    + destruct (IH (S i)) as (b & Hb & Hiff); [lia|].
      exists b. split; [exact Hb|]. rewrite Hiff. split.
      * intros H [|j] Hj; simpl.
        -- now rewrite Nat.add_0_r.
        -- rewrite Nat.add_succ_r. apply H. simpl in Hj. lia.
      * intros H j Hj. specialize (H (S j)). simpl in H.
        rewrite Nat.add_succ_r in H. apply H. lia.
    + exists false. split; [reflexivity|]. split; [discriminate|].
      intros H. exfalso. apply Hne. specialize (H 0%nat).
      simpl in H. rewrite Nat.add_0_r in H. apply H. lia.
Qed.

Lemma validate_spec (e : Engine) (expected : list Z) (sh : list nat) :
  getitem (config e) "input_shape" = Ok (JList (List.map JInt expected)) ->
  exists b, _validate_input_shape e sh = Ok b /\
            (b = true <-> shape_accepted sh expected).
Proof.
  intros Hcfg. unfold _validate_input_shape, shape_accepted.
  rewrite Hcfg. unfold mbind, result_bind, rbind. cbn [len].
  rewrite length_map.
  destruct (Nat.eqb_spec (length sh) (length expected)) as [Hlen|Hlen]; cbn [negb].
  - destruct sh as [|d sh].
    + exists true. split; [reflexivity|]. split; [|reflexivity].
      intros _. split; [exact Hlen|]. intros i Hi. simpl in Hi. lia.
    + cbn [tl]. destruct (validate_loop_spec expected sh 1) as (b & Hb & Hiff).
      { simpl in Hlen. lia. }
      exists b. split; [exact Hb|]. rewrite Hiff. split.
      * intros H. split; [exact Hlen|]. intros [|i] Hi; [lia|].
        simpl. apply (H i). simpl in Hi. lia.
      * intros [_ H] j Hj. apply (H (S j)). simpl. lia.
  - exists false. split; [reflexivity|]. split; [discriminate|].
    intros [H _]. contradiction.
Qed.

(** C2. On a loaded engine whose [input_shape] is a list of integers,
    validation accepts a shape exactly when its rank equals the rank of
    [input_shape] and every size from index 1 on equals the expected one.
    An accepted input is handed to the pipeline, so [predict] returns what
    the forward pass returns; a rejected one makes [predict] raise the
    shape error. The size at index 0 plays no part: replacing it by any
    other size keeps a shape accepted. *)
Theorem predict_shape_validation (e : Engine) (m : Pipeline StateDict)
  (expected : list Z) (x : Tensor Q) :
  model e = Some m ->
  getitem (config e) "input_shape" = Ok (JList (List.map JInt expected)) ->
  (_validate_input_shape e (shape x) = Ok true <->
     shape_accepted (shape x) expected) /\
  (shape_accepted (shape x) expected -> predict e x = forward m x) /\
  (~ shape_accepted (shape x) expected ->
     predict e x = Err (ValueError "Invalid input shape")) /\
  (forall batch batch' rest,
     shape_accepted (batch :: rest) expected ->
     shape_accepted (batch' :: rest) expected).
Proof.
  intros Hm Hcfg.
  destruct (validate_spec e expected (shape x) Hcfg) as (b & Hb & Hiff).
  split; [|split; [|split]].
  - rewrite Hb. split.
    + intros [= ->]. now apply Hiff.
    + intros H. apply Hiff in H. now subst b.
  - intros H. unfold predict. rewrite Hm, Hb. apply Hiff in H. now subst b.
  - intros H. unfold predict. rewrite Hm, Hb.
    destruct b; [exfalso; apply H; now apply Hiff | reflexivity].
  - intros batch batch' rest [Hlen H]. split; [exact Hlen|].
    intros [|i] Hi; [lia|]. exact (H (S i) Hi).
Qed.

Lemma recognized_false (t : json) :
  recognized t = false ->
  is_str "Dense" t = false /\ is_str "Conv2D" t = false /\
  is_str "MaxPool2D" t = false /\ is_str "Flatten" t = false /\
  is_str "Dropout" t = false /\ is_str "BatchNorm" t = false.
Proof.
  destruct t; simpl; try (intros _; repeat split; reflexivity).
  unfold recognized_name. intros H.
  repeat (apply orb_false_iff in H; destruct H as [H ?]).
  repeat split; assumption.
Qed.

Lemma create_unrecognized (l t ps : json) :
  getitem l "type" = Ok t -> getitem l "params" = Ok ps ->
  recognized t = false -> _create_layer l = Ok None.
Proof.
  intros Ht Hps Hr. unfold _create_layer. rewrite Ht, Hps. unmonad.
  destruct (recognized_false t Hr) as (H1 & H2 & H3 & H4 & H5 & H6).
  now rewrite H1, H2, H3, H4, H5, H6.
Qed.

Lemma construct_ok (m m' : nnModule) : construct m = Ok m' -> m' = m.
Proof.
  unfold construct. destruct (nn_init m); [discriminate|]. now intros [= <-].
Qed.

(** A layer of a recognized type, when it is created, is a stage that the
    builder's truth test keeps. *)
Lemma create_recognized (l t : json) (r : option nnModule) :
  getitem l "type" = Ok t -> recognized t = true ->
  _create_layer l = Ok r ->
  exists st, r = Some st /\ module_truthy st = true.
Proof.
  intros Ht Hr. unfold _create_layer. rewrite Ht. unmonad.
  destruct (getitem l "params") as [ps|]; [|discriminate].
  destruct (is_str "Dense" t) eqn:E1.
  { destruct (getitem ps "input_size") as [a|]; [|discriminate]. simpl.
    destruct (py_int a) as [i|]; [|discriminate]. simpl.
    destruct (getitem ps "output_size") as [b|]; [|discriminate]. simpl.
    destruct (py_int b) as [o|]; [|discriminate]. simpl.
    destruct (construct (Linear i o)) as [layer|] eqn:Hc; [|discriminate].
    apply construct_ok in Hc. subst layer.
    destruct (contains "activation" ps) as [[|]|]; simpl; try discriminate.
    - destruct (getitem ps "activation") as [n|]; [|discriminate]. simpl.
      destruct (_create_activation n) as [[a'|]|]; simpl; try discriminate;
        intros [= <-]; eexists; split; reflexivity.
    - intros [= <-]. eexists; split; reflexivity. }
  destruct (is_str "Conv2D" t) eqn:E2.
  { destruct (getitem ps "kernel_size") as [ks|]; [|discriminate]. simpl.
    destruct (getitem ps "in_channels") as [a|]; [|discriminate]. simpl.
    destruct (py_int a) as [ic|]; [|discriminate]. simpl.
    destruct (getitem ps "out_channels") as [b|]; [|discriminate]. simpl.
    destruct (py_int b) as [oc|]; [|discriminate]. simpl.
    destruct (getitem ps "stride") as [c|]; [|discriminate]. simpl.
    destruct (py_int c) as [st|]; [|discriminate]. simpl.
    destruct (getitem ps "padding") as [pad|]; [|discriminate]. simpl.
    destruct (get ps "use_bias" (JBool true)) as [bias|]; [|discriminate]. simpl.
    destruct (construct _) as [layer|] eqn:Hc; [|discriminate].
    apply construct_ok in Hc. subst layer.
    intros [= <-]. eexists; split; reflexivity. }
  destruct (is_str "MaxPool2D" t) eqn:E3.
  { destruct (getitem ps "pool_size") as [ks|]; [|discriminate]. simpl.
    destruct (getitem ps "stride") as [c|]; [|discriminate]. simpl.
    destruct (py_int c) as [st|]; [|discriminate]. simpl.
    destruct (getitem ps "padding") as [pad|]; [|discriminate]. simpl.
    destruct (construct _) as [layer|] eqn:Hc; [|discriminate].
    apply construct_ok in Hc. subst layer.
    intros [= <-]. eexists; split; reflexivity. }
  destruct (is_str "Flatten" t) eqn:E4.
  { destruct (construct _) as [layer|] eqn:Hc; [|discriminate].
    apply construct_ok in Hc. subst layer.
    intros [= <-]. eexists; split; reflexivity. }
  destruct (is_str "Dropout" t) eqn:E5.
  { destruct (getitem ps "rate") as [a|]; [|discriminate]. simpl.
    destruct (py_float a) as [q|]; [|discriminate]. simpl.
    destruct (construct _) as [layer|] eqn:Hc; [|discriminate].
    apply construct_ok in Hc. subst layer.
    intros [= <-]. eexists; split; reflexivity. }
  destruct (is_str "BatchNorm" t) eqn:E6.
  { destruct (getitem ps "size") as [a|]; [|discriminate]. simpl.
    destruct (py_int a) as [n|]; [|discriminate]. simpl.
    destruct (construct _) as [layer|] eqn:Hc; [|discriminate].
    apply construct_ok in Hc. subst layer.
    intros [= <-]. eexists; split; reflexivity. }
  exfalso. destruct t; cbn [recognized] in Hr; try discriminate.
  unfold is_str in E1, E2, E3, E4, E5, E6.
  unfold recognized_name in Hr. rewrite E1, E2, E3, E4, E5, E6 in Hr.
  discriminate.
Qed.




Lemma build_loop_spec (items : list json) :
  forall acc,
  Forall (fun l => is_ok (_create_layer l) = true) items ->
  exists sts, build_loop items acc = Ok (acc ++ sts)%list /\
    Forall2 (fun l st => _create_layer l = Ok (Some st))
      (List.filter layer_recognized items) sts.
Proof.
  induction items as [|l rest IH]; intros acc Hall.
  - exists []. simpl. rewrite app_nil_r. split; [reflexivity|constructor].
  - apply Forall_cons_iff in Hall. destruct Hall as [Hl Hall].
    cbn [build_loop List.filter]. unmonad.
    destruct (_create_layer l) as [r|] eqn:Hc; [|discriminate].
    unfold layer_recognized.
    destruct (getitem l "type") as [t|] eqn:Ht.
    2:{ unfold _create_layer in Hc. rewrite Ht in Hc. discriminate. }
    destruct (recognized t) eqn:Hr.
    + destruct (create_recognized l t r Ht Hr Hc) as (st & -> & Htr).
      rewrite Htr. destruct (IH (acc ++ [st])%list Hall) as (sts & Hb & Hf).
      exists (st :: sts). split.
      * rewrite Hb. now rewrite <- app_assoc.
      * constructor; [exact Hc | exact Hf].
    + destruct (getitem l "params") as [ps|] eqn:Hps.
      2:{ unfold _create_layer in Hc. rewrite Ht, Hps in Hc. discriminate. }
      rewrite (create_unrecognized l t ps Ht Hps Hr) in Hc.
      injection Hc as <-. exact (IH acc Hall).
Qed.

(** C4. For a config whose every layer spec [_create_layer] accepts, the
    build succeeds; the pipeline has as many stages as there are layers
    minus the layers of unrecognized type; and its stages are, in the
    declared order, exactly the stages created for the layers of
    recognized type. *)
Theorem build_preserves_order (e : Engine) (layers : list json) :
  getitem (config e) "layers" = Ok (JList layers) ->
  Forall (fun l => is_ok (_create_layer l) = true) layers ->
  exists p, _build_model_from_config e = Ok p /\
    length (stages p)
      = (length layers
         - length (List.filter (fun l => negb (layer_recognized l)) layers))%nat /\
    Forall2 (fun l st => _create_layer l = Ok (Some st))
      (List.filter layer_recognized layers) (stages p).
Proof.
  intros Hcfg Hall. unfold _build_model_from_config. rewrite Hcfg. unmonad.
  destruct (build_loop_spec layers [] Hall) as (sts & Hb & Hf).
  rewrite Hb. simpl. eexists. split; [reflexivity|]. simpl. split; [|exact Hf].
  pose proof (List.filter_length layer_recognized layers) as Hlen.
  apply Forall2_length in Hf. lia.
Qed.

Lemma predict_wf (e : Engine) (x out : Tensor Q) :
  wf x -> predict e x = Ok out -> wf out.
Proof.
  intros Hx. unfold predict. destruct (model e) as [m|]; [|discriminate].
  unmonad. destruct (_validate_input_shape e (shape x)) as [[|]|]; simpl;
    try discriminate.
  intros H. eapply forward_wf; eassumption.
Qed.

(** X1. The regular case of [predict_top_k]. When the pipeline's output
    for an input is a single row of [c] logits and [2 <= k <= c], the call
    returns a flat list of exactly [k] indices and a flat list of exactly
    [k] probabilities; every probability lies between 0 and 1, the
    probabilities are in non-increasing order, and every index is below
    [c]. A [k] larger than [c] makes the call raise. *)
Theorem top_k_of_single_row (e : Engine) (x out : Tensor Q) (c k : nat) :
  wf x -> predict e x = Ok out -> shape out = [1%nat; c] ->
  (2 <= k <= c)%nat ->
  (exists idx probs,
     predict_top_k e x (Z.of_nat k)
       = Ok (Nested (List.map Scalar idx), Nested (List.map Scalar probs)) /\
     length idx = k /\ length probs = k /\
     List.Forall (fun p => 0 <= p <= 1)%Q probs /\
     StronglySorted (fun p q => q <= p)%Q probs /\
     List.Forall (fun i => i < c)%nat idx) /\
  (forall k', Z.of_nat c < k' -> predict_top_k e x k' = Err RuntimeError).
Proof.
  intros Hx Hp Hs Hk.
  pose proof (predict_wf e x out Hx Hp) as Hwf.
  destruct (softmax_2d fexp out 1 c fexp_pos Hwf Hs) as (Hps & Hpl & Hrange).
  rewrite Nat.mul_1_l in Hpl.
  set (P := softmax fexp out) in *.
  split.
  - exists (List.map snd (row_topk k (data P))),
           (List.map fst (row_topk k (data P))).
    assert (Hlen : length (row_topk k (data P)) = k)
      by (rewrite length_row_topk; lia).
    split; [|split; [|split; [|split; [|split]]]].
    + unfold predict_top_k. rewrite Hp. unfold mbind, result_bind, rbind.
      change (softmax fexp out) with P.
      rewrite (topk_single_row P c k Hps Hpl) by lia.
      unfold squeeze. cbn [shape data List.filter Nat.eqb negb].
      destruct (Nat.eqb_spec k 1) as [->|_]; [lia|]. cbn [negb].
      rewrite !tolist_vector_len by (now rewrite length_map).
      reflexivity.
    + now rewrite length_map.
    + now rewrite length_map.
    + apply List.Forall_forall. intros p Hin. apply in_map_iff in Hin.
      destruct Hin as ([v i] & <- & Hin). apply in_row_topk in Hin.
      apply Hrange. exact (proj1 Hin).
    + apply row_topk_sorted.
    + apply List.Forall_forall. intros i Hin. apply in_map_iff in Hin.
      destruct Hin as ([v j] & <- & Hin). apply in_row_topk in Hin.
      simpl. lia.
  - intros k' Hk'. unfold predict_top_k. rewrite Hp.
    unfold mbind, result_bind, rbind. change (softmax fexp out) with P.
    rewrite (topk_too_large P k'); [reflexivity|].
    change (shape P) with (shape out). rewrite Hs. exact Hk'.
Qed.

End Properties.

(** * What [get_model_info] shares *)

Section Sharing.
Import ModelInfo.

Lemma sequence_map_mono {A B} (f g : A -> option B) (l : list A) (r : list B) :
  (forall x y, In x l -> f x = Some y -> g x = Some y) ->
  sequence (List.map f l) = Some r -> sequence (List.map g l) = Some r.
Proof.
  revert r. induction l as [|x l IH]; intros r Hfg; simpl; [easy|].
  destruct (f x) as [y|] eqn:Hx; [|discriminate].
  rewrite (Hfg x y (or_introl eq_refl) Hx).
  destruct (sequence (List.map f l)) as [r'|] eqn:Hl; [|discriminate].
  rewrite (IH r'); [easy | | reflexivity].
  intros x' y' Hin. apply Hfg. now right.
Qed.

(** Reading a value does not depend on objects added to the store. *)
Lemma read_mono (fuel : nat) (h h' : gmap nat obj) :
  h ⊆ h' -> forall v j, read fuel h v = Some j -> read fuel h' v = Some j.
Proof.
  intros Hsub. induction fuel as [|fuel IH]; intros v j;
    destruct v as [| | | | |a]; simpl; try easy.
  destruct (h !! a) as [o|] eqn:Ha; [|discriminate].
  rewrite (lookup_weaken h h' a o Ha Hsub).
  destruct o as [vs|es].
  - destruct (sequence (List.map (read fuel h) vs)) as [js|] eqn:Hs; [|discriminate].
    rewrite (sequence_map_mono (read fuel h) (read fuel h') vs js); [easy| |exact Hs].
    intros x y _. apply IH.
  - match goal with |- match sequence (List.map ?f es) with _ => _ end = _ -> _ =>
      destruct (sequence (List.map f es)) as [d|] eqn:Hs; [|discriminate];
      set (F := f) in *
    end.
    match goal with |- _ -> match sequence (List.map ?g es) with _ => _ end = _ =>
      rewrite (sequence_map_mono F g es d); [easy| |exact Hs]
    end.
    intros [k x] y _. unfold F. simpl.
    destruct (read fuel h x) as [jx|] eqn:Hx; [|discriminate].
    now rewrite (IH x jx Hx).
Qed.

Lemma mutate_fresh_extends (h : gmap nat obj) (a : nat) (o : obj) (mu : mutation) :
  h !! a = None -> h ⊆ mutate a mu (<[a := o]> h).
Proof.
  intros Ha. unfold mutate. rewrite lookup_insert_eq.
  assert (Hins : forall o', h ⊆ <[a := o']> (<[a := o]> h)).
  { intros o'. rewrite insert_insert_eq. now apply insert_subseteq. }
  assert (Hid : h ⊆ <[a := o]> h) by now apply insert_subseteq.
  destruct o, mu; auto.
Qed.

(** C7, as the code has it. [get_model_info] returns a new object: an
    empty dict when the config is [None] (or empty), and otherwise an
    object with the very items of the config, so that nested lists and
    dicts are shared, not copied. Nothing a caller does to the returned
    object itself (setting, deleting or clearing its keys) changes what
    [self.config] reads as. *)
Theorem returned_mapping_is_a_new_object (config : val) (st st' : Store) (v : val) :
  objs st !! next st = None ->
  get_model_info config st = (Ok v, st') ->
  v = VRef (next st) /\
  (truthy (objs st) config = false -> objs st' !! next st = Some (ODict [])) /\
  (forall a, config = VRef a -> truthy (objs st) config = true ->
     objs st' !! next st = objs st !! a) /\
  (forall mu fuel j,
     read fuel (objs st) config = Some j ->
     read fuel (mutate (next st) mu (objs st')) config = Some j).
Proof.
  intros Hfresh. unfold get_model_info, new.
  destruct (truthy (objs st) config) eqn:Ht.
  - destruct config as [| | | | |a]; try discriminate.
    destruct (objs st !! a) as [o|] eqn:Ha; [|discriminate].
    intros [= <- <-]. split; [reflexivity|]. split; [discriminate|]. split.
    + intros a' [= <-] _. simpl. now rewrite lookup_insert_eq.
    + intros mu fuel j. simpl. apply read_mono. now apply mutate_fresh_extends.
  - intros [= <- <-]. split; [reflexivity|]. split; [|split].
    + intros _. simpl. now rewrite lookup_insert_eq.
    + discriminate.
    + intros mu fuel j. simpl. apply read_mono. now apply mutate_fresh_extends.
Qed.

End Sharing.

(** * More facts about the tensor operations *)

Section RowFacts.

Lemma in_insert_desc_rev (x y : Q * nat) (l : list (Q * nat)) :
  y = x \/ In y l -> In y (insert_desc x l).
Proof.
  induction l as [|z l IH]; simpl.
  - intros [->|[]]. now left.
  - destruct (Qle_bool (fst z) (fst x)); simpl.
    + intros [->|[->|H]]; auto.
    + intros [->|[->|H]]; auto.
Qed.

Lemma in_sort_desc_rev (y : Q * nat) (l : list (Q * nat)) :
  In y l -> In y (sort_desc l).
Proof.
  induction l as [|x l IH]; simpl; [easy|].
  intros [->|H]; apply in_insert_desc_rev; auto.
Qed.

Lemma in_combine_seq (row : list Q) :
  forall (s i : nat) (v : Q),
  In (v, i) (combine row (seq s (length row))) ->
  (s <= i)%nat /\ nth_error row (i - s) = Some v.
Proof.
  induction row as [|a row IH]; simpl; intros s i v; [easy|].
  intros [[= -> ->]|H].
  - split; [lia|]. now rewrite Nat.sub_diag.
  - apply IH in H. destruct H as [Hle Hn]. split; [lia|].
    replace (i - s)%nat with (S (i - S s)) by lia. exact Hn.
Qed.

Lemma combine_seq_in (row : list Q) (v : Q) :
  forall s, In v row -> exists i, In (v, i) (combine row (seq s (length row))).
Proof.
  induction row as [|a row IH]; simpl; intros s; [easy|].
  intros [->|H].
  - exists s. now left.
  - destruct (IH (S s) H) as [i Hi]. exists i. now right.
Qed.

(** The first entry of a sorted row is its largest value, paired with a
    position at which the row holds it. *)
Lemma row_top1 (row : list Q) :
  row <> [] ->
  exists v i, row_topk 1 row = [(v, i)] /\
    nth_error row i = Some v /\
    List.Forall (fun q => q <= v)%Q row.
Proof.
  intros Hne. unfold row_topk.
  pose proof (length_sort_desc (indexed row)) as Hlen.
  rewrite length_indexed in Hlen.
  pose proof (sort_desc_sorted (indexed row)) as Hsorted.
  assert (Hin : forall y, In y (sort_desc (indexed row)) -> In y (indexed row))
    by (intros y; apply in_sort_desc).
  assert (Hrev : forall y, In y (indexed row) -> In y (sort_desc (indexed row)))
    by (intros y; apply in_sort_desc_rev).
  destruct (sort_desc (indexed row)) as [|[v i] rest].
  - destruct row; [congruence|discriminate].
  - exists v, i. split; [reflexivity|]. split.
    + specialize (Hin (v, i) (or_introl eq_refl)). unfold indexed in Hin.
      apply in_combine_seq in Hin. destruct Hin as [_ Hn].
      now rewrite Nat.sub_0_r in Hn.
    + apply List.Forall_forall. intros q Hq.
      destruct (combine_seq_in row q 0%nat Hq) as [j Hj].
      specialize (Hrev (q, j) Hj). inversion Hsorted as [|? ? _ Hall]; subst.
      destruct Hrev as [[= -> ->]|Hrest]; [apply Qle_refl|].
      rewrite List.Forall_forall in Hall. exact (Hall _ Hrest).
Qed.

(** [max] along the last dimension of a single row. *)
Lemma max_last_single_row (t : Tensor Q) (c : nat) :
  shape t = [1%nat; c] -> length (data t) = c -> (1 <= c)%nat ->
  max_last t
  = Ok (mkTensor [1%nat] (List.map fst (row_topk 1 (data t))),
        mkTensor [1%nat] (List.map snd (row_topk 1 (data t)))).
Proof.
  intros Hs Hlen Hc. unfold max_last. rewrite (rows_2d t 1 c Hs), Hs.
  cbn [last_dim List.last]. destruct (Nat.eqb_spec c 0) as [->|_]; [lia|].
  rewrite (chunks_single c (data t) Hlen). simpl. now rewrite !app_nil_r.
Qed.

Lemma chunks_concat {A} (c : nat) (rs : list (list A)) :
  List.Forall (fun r => length r = c) rs ->
  chunks (length rs) c (concat rs) = rs.
Proof.
  induction 1 as [|r rs Hr _ IH]; simpl; [reflexivity|].
  rewrite firstn_app, skipn_app, Hr, Nat.sub_diag.
  replace (firstn c r) with r by (rewrite <- Hr; symmetry; apply firstn_all).
  replace (skipn c r) with (@nil A) by (rewrite <- Hr; symmetry; apply skipn_all).
  change (firstn 0 (concat rs)) with (@nil A).
  change (skipn 0 (concat rs)) with (concat rs).
  rewrite app_nil_r. cbn [app]. now rewrite IH.
Qed.

Lemma in_chunks {A} (n c : nat) (l r : list A) (x : A) :
  In r (chunks n c l) -> In x r -> In x l.
Proof.
  revert l. induction n as [|n IH]; simpl; intros l; [easy|].
  intros [<-|Hr] Hx.
  - eapply in_firstn; eassumption.
  - rewrite <- (firstn_skipn c l). apply in_or_app. right. eapply IH; eassumption.
Qed.

(** [tolist] of a matrix with [b] rows of [k] elements. *)
Lemma tolist_matrix {A} (b k : nat) (rs : list (list A)) :
  length rs = b -> List.Forall (fun r => length r = k) rs ->
  tolist (mkTensor [b; k] (concat rs))
  = Nested (List.map (fun r => Nested (List.map Scalar r)) rs).
Proof.
  intros Hb Hk. unfold tolist. cbn [shape data tolist_aux].
  f_equal. change (numel_of [k]) with (k * 1)%nat. rewrite Nat.mul_1_r.
  rewrite <- Hb, (chunks_concat k rs Hk).
  apply map_ext_in. intros r Hr. rewrite List.Forall_forall in Hk.
  exact (tolist_vector_len k r (Hk r Hr)).
Qed.

(** [topk] on a matrix: one sorted row of [k] entries per row. *)
Lemma topk_matrix (t : Tensor Q) (b c k : nat) :
  shape t = [b; c] -> (k <= c)%nat ->
  topk t (Z.of_nat k)
  = Ok (mkTensor [b; k]
          (concat (List.map (List.map fst)
                     (List.map (row_topk k) (chunks b c (data t))))),
        mkTensor [b; k]
          (concat (List.map (List.map snd)
                     (List.map (row_topk k) (chunks b c (data t)))))).
Proof.
  intros Hs Hk. unfold topk. rewrite (rows_2d t b c Hs), Hs.
  cbn [last_dim List.last].
  destruct (Z.ltb_spec (Z.of_nat k) 0) as [H|_]; [lia|].
  destruct (Z.ltb_spec (Z.of_nat c) (Z.of_nat k)) as [H|_]; [lia|].
  cbn [orb]. now rewrite Nat2Z.id.
Qed.

Lemma Qsum_scale (s : Q) (l : list Q) :
  (Qsum (List.map (fun e => e / s) l) == Qsum l / s)%Q.
Proof.
  induction l as [|a l IH]; simpl.
  - unfold Qdiv. now rewrite Qmult_0_l.
  - rewrite IH. unfold Qdiv. now rewrite Qmult_plus_distr_l.
Qed.

Lemma Qsum_pos (l : list Q) :
  l <> [] -> List.Forall (fun x => 0 < x)%Q l -> (0 < Qsum l)%Q.
Proof.
  intros Hne Hall. destruct l as [|a l]; [congruence|].
  apply Qlt_le_trans with a.
  - now inversion Hall.
  - apply Qsum_ge_elem; [|now left].
    eapply List.Forall_impl; [|exact Hall]. intros x. apply Qlt_le_weak.
Qed.

(** The probabilities of a row add up to 1. *)
Lemma softmax_row_sum (f : Q -> Q) (row : list Q) :
  (forall x, 0 < f x)%Q -> row <> [] -> (Qsum (softmax_row f row) == 1)%Q.
Proof.
  intros Hf Hne. unfold softmax_row. rewrite Qsum_scale.
  assert (Hpos : (0 < Qsum (List.map f row))%Q).
  { apply Qsum_pos.
    - destruct row; [congruence|discriminate].
    - apply List.Forall_forall. intros x Hx. apply in_map_iff in Hx.
      destruct Hx as (y & <- & _). apply Hf. }
  unfold Qdiv. apply Qmult_inv_r. intros H. rewrite H in Hpos.
  now apply Qlt_irrefl in Hpos.
Qed.

Lemma softmax_single_row (f : Q -> Q) (t : Tensor Q) (c : nat) :
  shape t = [1%nat; c] -> length (data t) = c ->
  data (softmax f t) = softmax_row f (data t).
Proof.
  intros Hs Hlen. unfold softmax. cbn [data].
  rewrite (rows_2d t 1 c Hs), (chunks_single c (data t) Hlen).
  simpl. now rewrite app_nil_r.
Qed.

Lemma row_topk_head (k : nat) (row : list Q) :
  (1 <= k)%nat ->
  row_topk k row = (row_topk 1 row ++ skipn 1 (row_topk k row))%list.
Proof.
  intros Hk. unfold row_topk. destruct k as [|k]; [lia|].
  destruct (sort_desc (indexed row)) as [|y rest]; reflexivity.
Qed.

Lemma Qsum_bounds (lo hi : Q) (l : list Q) :
  List.Forall (fun t => lo <= t <= hi)%Q l ->
  (inject_Z (Z.of_nat (length l)) * lo <= Qsum l)%Q /\
  (Qsum l <= inject_Z (Z.of_nat (length l)) * hi)%Q.
Proof.
  induction 1 as [|t l [Hlo Hhi] _ [IHlo IHhi]].
  - simpl. split; rewrite Qmult_0_l; apply Qle_refl.
  - cbn [length Qsum fold_right]. rewrite Nat2Z.inj_succ.
    unfold Z.succ. rewrite inject_Z_plus.
    rewrite !Qmult_plus_distr_l, !Qmult_1_l.
    split.
    + rewrite Qplus_comm. now apply Qplus_le_compat.
    + rewrite (Qplus_comm _ hi). now apply Qplus_le_compat.
Qed.

End RowFacts.

(** * Loading and saving *)

Section Loading.
Context `{Ext : External}.
Import InferenceEngine.

Local Ltac unmonad :=
  unfold mbind, mret, M_bind, M_ret, result_bind, result_ret, bind, ret, raise,
    lift, get_self, set_config, set_model, rbind in *; simpl in *.

(** The build reads the config only: the pipeline held before plays no
    part. *)
Lemma build_ignores_model (m1 m2 : option (Pipeline StateDict)) (c : json) :
  _build_model_from_config (mkEngine m1 c) = _build_model_from_config (mkEngine m2 c).
Proof. reflexivity. Qed.

(** X2. Whatever makes [_load_weights] fail, the exception it raises is
    the one its fallback got from opening and parsing the same path as
    JSON: an error of [torch.load] or of [load_state_dict] is never
    reported. *)
Theorem load_weights_reports_the_fallback_error (path : string) (s s' : State)
  (err : pyerr) :
  _load_weights path s = (Err err, s') ->
  read_json path s' = (Err err, s').
Proof.
  unfold _load_weights, try_except.
  destruct ((state_dict ← torch_load path; model_load_state_dict state_dict) s)
    as [[u|e0] s1] eqn:Hbody; [discriminate|].
  unfold _load_weights_from_json, read_json. unmonad.
  destruct (files (world s1) !! path) as [[sd|j|]|] eqn:Hf;
    intros [= <- <-]; try discriminate; now rewrite Hf.
Qed.

(** X3. [_load_weights] on a path that holds a native parameter state.
    When [load_state_dict] accepts it, the pipeline's parameters become
    what [load_state_dict] leaves and nothing else changes. When
    [load_state_dict] raises, the call fails with the decoding error of
    the JSON fallback, and the parameters stay as [load_state_dict] left
    them. *)
Theorem load_weights_native (path : string) (s : State)
  (m : Pipeline StateDict) (sd p : StateDict) (outcome : option pyerr) :
  model (self s) = Some m ->
  files (world s) !! path = Some (NativeBlob sd) ->
  load_state_dict m sd = (p, outcome) ->
  _load_weights path s
  = (match outcome with Some _ => Err DecodeError | None => Ok tt end,
     mkState (mkEngine (Some (mkPipeline (stages m) p (placed m) (training m)))
                (config (self s))) (world s)).
Proof.
  intros Hm Hf Hl.
  unfold _load_weights, try_except, torch_load, model_load_state_dict,
    _load_weights_from_json, read_json.
  unmonad. rewrite Hf, Hm, Hl.
  destruct outcome as [e|]; [|reflexivity].
  simpl. now rewrite Hf.
Qed.

(** X4. A successful [load_model] leaves the files and the clock as they
    were; the engine then holds the document read from the config path and
    a pipeline with the stages built from that document, placed on the
    device and in evaluation mode. Its parameters are those
    [load_state_dict] produced from a native weights file, or, when the
    weights file is a JSON text, the freshly initialized ones. *)
Theorem load_model_success (config_path weights_path : string) (s s' : State) :
  load_model config_path weights_path s = (Ok tt, s') ->
  world s' = world s /\
  exists c m m',
    files (world s) !! config_path = Some (JsonText c) /\
    _build_model_from_config (mkEngine None c) = Ok m /\
    self s' = mkEngine (Some m') c /\
    stages m' = stages m /\ placed m' = true /\ training m' = false /\
    ((exists sd, files (world s) !! weights_path = Some (NativeBlob sd) /\
        load_state_dict m sd = (params m', None)) \/
     (exists j, files (world s) !! weights_path = Some (JsonText j) /\
        params m' = default_state (stages m))).
Proof.
  unfold load_model, _load_config, read_json. unmonad.
  destruct (files (world s) !! config_path) as [[sd|c|]|] eqn:Hc; try discriminate.
  simpl.
  rewrite (build_ignores_model (model (self s)) None c).
  destruct (_build_model_from_config (mkEngine None c)) as [m|] eqn:Hb;
    [|discriminate].
  simpl.
  assert (Hparams : params m = default_state (stages m)).
  { revert Hb. unfold _build_model_from_config. unmonad.
    destruct (getitem c "layers") as [d|]; simpl; [|discriminate].
    destruct (iter d) as [items|]; simpl; [|discriminate].
    destruct (build_loop items []) as [ls|]; simpl; [|discriminate].
    now intros [= <-]. }
  unfold _load_weights, try_except, torch_load, model_load_state_dict,
    _load_weights_from_json, read_json, model_to, model_eval.
  unmonad.
  destruct (files (world s) !! weights_path) as [[sd|j|]|] eqn:Hw; simpl;
    rewrite ?Hw; simpl; try discriminate.
  - destruct (load_state_dict m sd) as [p [e|]] eqn:Hl; simpl;
      rewrite ?Hw; simpl; try discriminate.
    destruct (to_error _); simpl; [discriminate|].
    intros [= <-]. simpl. split; [reflexivity|].
    eexists c, m, _. repeat (split; [first [reflexivity | exact Hb]|]).
    left. exists sd. split; [reflexivity|exact Hl].
  - destruct (to_error _); simpl; [discriminate|].
    intros [= <-]. simpl. split; [reflexivity|].
    eexists c, m, _. repeat (split; [first [reflexivity | exact Hb]|]).
    right. exists j. split; [reflexivity|exact Hparams].
Qed.

(** X5. The outcome of [load_model] does not depend on what the engine
    held before: from two engines in the same world the call returns or
    raises alike, and when it returns after reading a native weights file,
    it leaves the same engine. *)
Theorem load_model_replaces_the_engine (config_path weights_path : string)
  (e1 e2 : Engine) (w : World) :
  let r1 := load_model config_path weights_path (mkState e1 w) in
  let r2 := load_model config_path weights_path (mkState e2 w) in
  fst r1 = fst r2 /\
  (forall sd, files w !! weights_path = Some (NativeBlob sd) ->
     is_ok (fst r1) = true -> snd r1 = snd r2).
Proof.
  unfold load_model, _load_config, read_json. unmonad.
  destruct (files w !! config_path) as [[sd|c|]|] eqn:Hc; simpl;
    try (split; [reflexivity|intros; discriminate]).
  rewrite (build_ignores_model (model e1) None c),
          (build_ignores_model (model e2) None c).
  destruct (_build_model_from_config (mkEngine None c)) as [m|] eqn:Hb; simpl;
    [|split; [reflexivity|intros; discriminate]].
  unfold _load_weights, try_except, torch_load, model_load_state_dict,
    _load_weights_from_json, read_json, model_to, model_eval.
  unmonad.
  destruct (files w !! weights_path) as [[sd|j|]|] eqn:Hw; simpl;
    rewrite ?Hw; simpl; try (split; [reflexivity|intros; discriminate]).
  destruct (load_state_dict m sd) as [p [e|]] eqn:Hl; simpl;
    rewrite ?Hw; simpl; try (split; [reflexivity|intros; discriminate]).
  destruct (to_error _); simpl; split; intros; try reflexivity; discriminate.
Qed.

(** X6. [save_model] on a loaded engine. When [torch.save] raises, nothing
    changes. Otherwise the engine and every other path are left alone, the
    path holds the pipeline's parameters, [torch.load] reads them back,
    the path no longer parses as JSON, and loading the weights from it
    hands exactly these parameters to [load_state_dict]. *)
Theorem save_model_round_trip (path : string) (s : State)
  (m : Pipeline StateDict) :
  model (self s) = Some m ->
  (forall e, save_error path = Some e -> save_model path s = (Err e, s)) /\
  (save_error path = None ->
   exists s', save_model path s = (Ok tt, s') /\
     self s' = self s /\ ticks (world s') = ticks (world s) /\
     (forall q, q <> path -> files (world s') !! q = files (world s) !! q) /\
     torch_load path s' = (Ok (params m), s') /\
     read_json path s' = (Err DecodeError, s') /\
     (forall p, load_state_dict m (params m) = (p, None) ->
        _load_weights path s'
        = (Ok tt,
           mkState (mkEngine
                      (Some (mkPipeline (stages m) p (placed m) (training m)))
                      (config (self s))) (world s')))).
Proof.
  intros Hm. unfold save_model, torch_save. unmonad. rewrite Hm. split.
  - intros e ->. reflexivity.
  - intros ->. eexists. split; [reflexivity|]. simpl.
    split; [reflexivity|]. split; [reflexivity|]. split.
    { intros q Hq. now rewrite lookup_insert_ne. }
    unfold torch_load, read_json. simpl. rewrite !lookup_insert_eq.
    split; [reflexivity|]. split; [reflexivity|].
    intros p Hl.
    unfold _load_weights, try_except, torch_load, model_load_state_dict.
    unmonad. rewrite lookup_insert_eq. cbn [self world model config].
    now rewrite Hm, Hl.
Qed.

End Loading.

(** * Building, continued *)

Section Building.
Context `{Ext : External}.
Import InferenceEngine.

Local Ltac unmonad :=
  unfold mbind, mret, M_bind, M_ret, result_bind, result_ret, bind, ret, raise,
    lift, get_self, set_config, set_model, rbind in *; simpl in *.

(** X7. The build stops at the first layer whose creation fails and
    raises that layer's exception, whatever follows it in the list. *)
Theorem build_reports_first_failure (pre post : list json) (l : json)
  (acc : list nnModule) (err : pyerr) :
  List.Forall (fun x => is_ok (_create_layer x) = true) pre ->
  _create_layer l = Err err ->
  build_loop (pre ++ l :: post) acc = Err err.
Proof.
  intros Hpre Hl. revert acc.
  induction Hpre as [|x pre Hx _ IH]; intros acc; simpl.
  - rewrite Hl. reflexivity.
  - destruct (_create_layer x) as [[st|]|]; [| |discriminate]; unmonad.
    + destruct (module_truthy st); apply IH.
    + apply IH.
Qed.

(** X8. The activation of a [Dense] layer. With sizes that convert and
    that [nn.Linear] accepts: without an [activation] parameter the stage
    is the bare [Linear]; with one of the five known names it is a
    [Sequential] of the [Linear] and the activation module; with any other
    string the name is ignored without error and the stage is the bare
    [Linear]. *)
Theorem dense_activation (l : json) (d : list (string * json)) (i o : Z) :
  getitem l "type" = Ok (JStr "Dense") ->
  getitem l "params" = Ok (JDict d) ->
  (getitem (JDict d) "input_size" ≫= py_int) = Ok i ->
  (getitem (JDict d) "output_size" ≫= py_int) = Ok o ->
  nn_init (Linear i o) = None ->
  (assoc "activation" d = None -> _create_layer l = Ok (Some (Linear i o))) /\
  (forall s, assoc "activation" d = Some (JStr s) -> In s activation_names ->
     exists act, _create_activation (JStr s) = Ok (Some act) /\
       _create_layer l = Ok (Some (Sequential [Linear i o; act]))) /\
  (forall s, assoc "activation" d = Some (JStr s) -> ~ In s activation_names ->
     _create_layer l = Ok (Some (Linear i o))).
Proof.
  intros Ht Hp Hi Ho Hinit.
  assert (Hl :
    _create_layer l
    = match assoc "activation" d with
      | Some v =>
          match _create_activation v with
          | Ok (Some act) => Ok (Some (Sequential [Linear i o; act]))
          | Ok None => Ok (Some (Linear i o))
          | Err e => Err e
          end
      | None => Ok (Some (Linear i o))
      end).
  { unfold _create_layer. rewrite Ht, Hp. unmonad. rewrite Hi, Ho.
    unfold construct. rewrite Hinit. simpl.
    destruct (assoc "activation" d) as [v|]; [|reflexivity].
    destruct (_create_activation v) as [[act|]|]; reflexivity. }
  split; [|split].
  - intros Ha. now rewrite Hl, Ha.
  - intros s Ha Hin. rewrite Hl, Ha.
    unfold activation_names in Hin. simpl in Hin.
    destruct Hin as [<-|[<-|[<-|[<-|[<-|[]]]]]]; eexists; split; reflexivity.
  - intros s Ha Hnot. rewrite Hl, Ha.
    unfold activation_names in Hnot. simpl in Hnot.
    unfold _create_activation.
    destruct (String.eqb_spec s "ReLU") as [->|_]; [tauto|].
    destruct (String.eqb_spec s "Sigmoid") as [->|_]; [tauto|].
    destruct (String.eqb_spec s "Tanh") as [->|_]; [tauto|].
    destruct (String.eqb_spec s "Softmax") as [->|_]; [tauto|].
    destruct (String.eqb_spec s "GELU") as [->|_]; [tauto|].
    reflexivity.
Qed.

End Building.

(** * Prediction, continued *)

Section Prediction.
Context `{Ext : External}.
Import InferenceEngine.

Local Ltac unmonad :=
  unfold mbind, mret, M_bind, M_ret, result_bind, result_ret, bind, ret, raise,
    lift, get_self, set_config, set_model, rbind in *; simpl in *.

(** X9. Validation against an [input_shape] that is a JSON list,
    whatever its items are: it never raises. It accepts exactly the shapes
    of the list's length whose sizes from index 1 on compare equal to the
    items at the same index, where a number compares by value and an item
    that is not a number compares unequal. When the config is a dict
    without [input_shape], validation raises a key error for every
    shape. *)
Theorem validation_against_any_list (e : Engine) (sh : list nat) :
  (forall items, getitem (config e) "input_shape" = Ok (JList items) ->
     exists b, _validate_input_shape e sh = Ok b /\
       (b = true <->
        length sh = length items /\
        forall i v, (1 <= i)%nat -> nth_error items i = Some v ->
          eq_int (Z.of_nat (nth i sh 0%nat)) v = true)) /\
  (forall d, config e = JDict d -> assoc "input_shape" d = None ->
     _validate_input_shape e sh = Err (KeyError "input_shape")).
Proof.
  split.
  - intros items Hcfg.
    assert (Hloop : forall s i, (i + length s = length items)%nat ->
      exists b, validate_loop s (JList items) i = Ok b /\
        (b = true <->
         forall j v, (j < length s)%nat -> nth_error items (i + j) = Some v ->
           eq_int (Z.of_nat (nth j s 0%nat)) v = true)).
    { induction s as [|d s IH]; intros i Hlen.
      - exists true. split; [reflexivity|]. split; [|reflexivity].
        intros _ j v Hj. simpl in Hj. lia.
      - simpl in Hlen. cbn [validate_loop index].
        destruct (nth_error items i) as [v0|] eqn:Hv0.
        2:{ apply nth_error_None in Hv0. lia. }
        unfold mbind, result_bind, rbind.
        destruct (eq_int (Z.of_nat d) v0) eqn:Heq; cbn [negb].
        + destruct (IH (S i)) as (b & Hb & Hiff); [lia|].
          exists b. split; [exact Hb|]. rewrite Hiff. split.
          * intros H [|j] v Hj Hv; simpl.
            -- rewrite Nat.add_0_r in Hv. congruence.
            -- rewrite Nat.add_succ_r in Hv. apply (H j v); [simpl in Hj; lia|exact Hv].
          * intros H j v Hj Hv. apply (H (S j) v); [simpl; lia|].
            now rewrite Nat.add_succ_r.
        + exists false. split; [reflexivity|]. split; [discriminate|].
          intros H. specialize (H 0%nat v0). simpl in H.
          rewrite Nat.add_0_r in H. rewrite H in Heq; [discriminate|lia|exact Hv0]. }
    unfold _validate_input_shape. rewrite Hcfg.
    unfold mbind, result_bind, rbind. cbn [len].
    destruct (Nat.eqb_spec (length sh) (length items)) as [Hlen|Hlen]; cbn [negb].
    + destruct sh as [|d sh].
      * exists true. split; [reflexivity|]. split; [|reflexivity].
        intros _. split; [exact Hlen|]. intros i v Hi Hv.
        assert (i < length items)%nat by (apply nth_error_Some; congruence).
        simpl in Hlen. lia.
      * cbn [tl]. destruct (Hloop sh 1%nat) as (b & Hb & Hiff).
        { simpl in Hlen. lia. }
        exists b. split; [exact Hb|]. rewrite Hiff. split.
        -- intros H. split; [exact Hlen|]. intros [|i] v Hi Hv; [lia|].
           simpl. apply (H i v); [|exact Hv].
           assert (S i < length items)%nat by (apply nth_error_Some; congruence).
           simpl in Hlen. lia.
        -- intros [_ H] j v Hj Hv. apply (H (S j) v); [lia|exact Hv].
    + exists false. split; [reflexivity|]. split; [discriminate|].
      intros [H _]. contradiction.
  - intros d Hc Hd. unfold _validate_input_shape. rewrite Hc.
    unfold getitem. rewrite Hd. reflexivity.
Qed.

(** X10. [predict_batch] returns exactly when [predict] returns on every
    input, and its result then holds the outputs of [predict], one per
    input and in the order of the inputs. *)
Theorem predict_batch_maps_predict (e : Engine) (inputs : list (Tensor Q))
  (results : list (Tensor Q)) :
  predict_batch e inputs = Ok results <->
  Forall2 (fun x r => predict e x = Ok r) inputs results.
Proof.
  revert results. induction inputs as [|x xs IH]; intros results; simpl.
  - split.
    + intros [= <-]. constructor.
    + intros H. inversion H. reflexivity.
  - unmonad. split.
    + destruct (predict e x) as [r|] eqn:Hr; [|discriminate].
      destruct (predict_batch e xs) as [rs|] eqn:Hrs; [|discriminate].
      intros [= <-]. constructor; [exact Hr|]. now apply IH.
    + intros H. inversion H as [|? r ? rs Hx Hxs]; subst.
      rewrite Hx. apply IH in Hxs. now rewrite Hxs.
Qed.

(** X11. [predict_batch] raises the exception of the first input on which
    [predict] raises; no partial list of results is returned. *)
Theorem predict_batch_first_failure (e : Engine) (pre post : list (Tensor Q))
  (x : Tensor Q) (err : pyerr) :
  List.Forall (fun y => is_ok (predict e y) = true) pre ->
  predict e x = Err err ->
  predict_batch e (pre ++ x :: post) = Err err.
Proof.
  intros Hpre Hx. induction Hpre as [|y pre Hy _ IH]; simpl.
  - now rewrite Hx.
  - destruct (predict e y) as [r|]; [|discriminate]. unmonad. now rewrite IH.
Qed.

(** X12. [predict_class] on an output of a single row. Without classes
    ([c = 0]) it raises. Otherwise it returns an index below the number
    of classes together with the probability found at that index; this
    probability lies between 0 and 1 and no probability of the row
    exceeds it. *)
Theorem predict_class_of_single_row (e : Engine) (x out : Tensor Q) (c : nat) :
  wf x -> predict e x = Ok out -> shape out = [1%nat; c] ->
  (c = 0%nat -> predict_class e x = Err RuntimeError) /\
  ((1 <= c)%nat ->
   exists i p, predict_class e x = Ok (i, p) /\
     (i < c)%nat /\ (0 <= p <= 1)%Q /\
     nth_error (data (softmax fexp out)) i = Some p /\
     List.Forall (fun q => q <= p)%Q (data (softmax fexp out))).
Proof.
  intros Hx Hp Hs.
  pose proof (predict_wf e x out Hx Hp) as Hwf.
  destruct (softmax_2d fexp out 1 c fexp_pos Hwf Hs) as (Hps & Hpl & Hrange).
  rewrite Nat.mul_1_l in Hpl.
  set (P := softmax fexp out) in *.
  split.
  - intros ->. unfold predict_class. rewrite Hp.
    unfold mbind, result_bind, rbind. change (softmax fexp out) with P.
    unfold max_last. rewrite Hps. reflexivity.
  - intros Hc.
    assert (Hne : data P <> []) by (destruct (data P); [simpl in Hpl; lia|easy]).
    destruct (row_top1 (data P) Hne) as (v & i & Htop & Hnth & Hmax).
    exists i, v. split; [|split; [|split; [|split]]].
    + unfold predict_class. rewrite Hp.
      unfold mbind, result_bind, rbind. change (softmax fexp out) with P.
      rewrite (max_last_single_row P c Hps Hpl Hc), Htop. reflexivity.
    + rewrite <- Hpl. apply nth_error_Some. now rewrite Hnth.
    + apply Hrange. eapply nth_error_In. exact Hnth.
    + exact Hnth.
    + exact Hmax.
Qed.

(** X13. The confidence [predict_class] returns for an output of a single
    row of [c >= 1] logits is at least [1 / c], the probability of a
    uniform guess. *)
Theorem confidence_at_least_uniform (e : Engine) (x out : Tensor Q) (c : nat)
  (i : nat) (p : Q) :
  wf x -> predict e x = Ok out -> shape out = [1%nat; c] -> (1 <= c)%nat ->
  predict_class e x = Ok (i, p) ->
  (1 / inject_Z (Z.of_nat c) <= p)%Q.
Proof.
  intros Hx Hp Hs Hc.
  pose proof (predict_wf e x out Hx Hp) as Hwf.
  pose proof (wf_2d out 1 c Hwf Hs) as Hlen. rewrite Nat.mul_1_l in Hlen.
  destruct (softmax_2d fexp out 1 c fexp_pos Hwf Hs) as (Hps & Hpl & Hrange).
  rewrite Nat.mul_1_l in Hpl.
  set (P := softmax fexp out) in *.
  assert (Hne : data P <> []) by (destruct (data P); [simpl in Hpl; lia|easy]).
  destruct (row_top1 (data P) Hne) as (v & j & Htop & Hnth & Hmax).
  unfold predict_class. rewrite Hp.
  unfold mbind, result_bind, rbind. change (softmax fexp out) with P.
  rewrite (max_last_single_row P c Hps Hpl Hc), Htop.
  cbn. intros [= <- <-].
  assert (Hsum : (Qsum (data P) == 1)%Q).
  { unfold P. rewrite (softmax_single_row fexp out c Hs Hlen).
    apply softmax_row_sum; [apply fexp_pos|].
    destruct (data out); [simpl in Hlen; lia|easy]. }
  assert (Hall : List.Forall (fun t => 0 <= t <= v)%Q (data P)).
  { apply List.Forall_forall. intros t Ht. split.
    - exact (proj1 (Hrange t Ht)).
    - rewrite List.Forall_forall in Hmax. now apply Hmax. }
  destruct (Qsum_bounds 0 v (data P) Hall) as [_ Hhi].
  rewrite Hsum, Hpl in Hhi.
  apply Qle_shift_div_r.
  - change 0%Q with (inject_Z 0). rewrite <- Zlt_Qlt. lia.
  - now rewrite Qmult_comm.
Qed.

(** X14. [predict_class_name] with a dict as config. Without a [classes]
    key it raises its own error before anything else is looked at, also
    when no model is loaded or the input would be rejected. With a list of
    names it returns the name at the index [predict_class] gives, next to
    the confidence, and raises an index error when the list is too short;
    an exception of [predict_class] is passed on. *)
Theorem predict_class_name_lookup (e : Engine) (x : Tensor Q)
  (d : list (string * json)) :
  config e = JDict d ->
  (assoc "classes" d = None ->
   predict_class_name e x
   = Err (ValueError "No class names defined in model config")) /\
  (forall names i p,
     assoc "classes" d = Some (JList names) ->
     predict_class e x = Ok (i, p) ->
     predict_class_name e x
     = match nth_error names i with
       | Some name => Ok (name, p)
       | None => Err IndexError
       end) /\
  (forall cl err,
     assoc "classes" d = Some cl ->
     predict_class e x = Err err ->
     predict_class_name e x = Err err).
Proof.
  intros Hc. unfold predict_class_name. rewrite Hc.
  unfold contains, getitem. unfold mbind, result_bind, rbind.
  split; [|split].
  - intros ->. reflexivity.
  - intros names i p -> ->. cbn [negb index].
    destruct (nth_error names i); reflexivity.
  - intros cl err -> ->. reflexivity.
Qed.

(** X15. The edge values of [k] in [predict_top_k], on an output of a
    single row of [c >= 1] logits: a negative [k] raises; [k = 0] returns
    two empty lists; [k = 1] returns no lists but a bare index and a bare
    probability: the confidence [predict_class] returns, and an index at
    which the row holds it. *)
Theorem top_k_edge_values (e : Engine) (x out : Tensor Q) (c : nat) :
  wf x -> predict e x = Ok out -> shape out = [1%nat; c] -> (1 <= c)%nat ->
  (forall k, k < 0 -> predict_top_k e x k = Err RuntimeError) /\
  predict_top_k e x 0 = Ok (Nested [], Nested []) /\
  exists i j p, predict_class e x = Ok (i, p) /\
    predict_top_k e x 1 = Ok (Scalar j, Scalar p) /\
    nth_error (data (softmax fexp out)) j = Some p.
Proof.
  intros Hx Hp Hs Hc.
  pose proof (predict_wf e x out Hx Hp) as Hwf.
  destruct (softmax_2d fexp out 1 c fexp_pos Hwf Hs) as (Hps & Hpl & _).
  rewrite Nat.mul_1_l in Hpl.
  set (P := softmax fexp out) in *.
  split; [|split].
  - intros k Hk. unfold predict_top_k. rewrite Hp.
    unfold mbind, result_bind, rbind. change (softmax fexp out) with P.
    unfold topk. destruct (Z.ltb_spec k 0) as [_|H]; [reflexivity|lia].
  - unfold predict_top_k. rewrite Hp.
    unfold mbind, result_bind, rbind. change (softmax fexp out) with P.
    change (topk P 0) with (topk P (Z.of_nat 0)).
    rewrite (topk_single_row P c 0 Hps Hpl) by lia. reflexivity.
  - assert (Hne : data P <> []) by (destruct (data P); [simpl in Hpl; lia|easy]).
    destruct (row_top1 (data P) Hne) as (v & i & Htop & Hnth & _).
    exists i, i, v. split; [|split].
    + unfold predict_class. rewrite Hp.
      unfold mbind, result_bind, rbind. change (softmax fexp out) with P.
      rewrite (max_last_single_row P c Hps Hpl Hc), Htop. reflexivity.
    + unfold predict_top_k. rewrite Hp.
      unfold mbind, result_bind, rbind. change (softmax fexp out) with P.
      change (topk P 1) with (topk P (Z.of_nat 1)).
      rewrite (topk_single_row P c 1 Hps Hpl) by lia.
      rewrite Htop. reflexivity.
    + exact Hnth.
Qed.

(** X16. The first entry of [predict_top_k] agrees with [predict_class]:
    on an output of a single row of [c] logits and for [2 <= k <= c], the
    list of probabilities starts with the confidence [predict_class]
    returns, and the list of indices with an index at which the row holds
    that probability. *)
Theorem top_k_starts_with_the_confidence (e : Engine) (x out : Tensor Q)
  (c k : nat) :
  wf x -> predict e x = Ok out -> shape out = [1%nat; c] ->
  (2 <= k <= c)%nat ->
  exists i j p idx probs,
    predict_class e x = Ok (i, p) /\
    predict_top_k e x (Z.of_nat k)
    = Ok (Nested (Scalar j :: List.map Scalar idx),
          Nested (Scalar p :: List.map Scalar probs)) /\
    nth_error (data (softmax fexp out)) j = Some p.
Proof.
  intros Hx Hp Hs Hk.
  pose proof (predict_wf e x out Hx Hp) as Hwf.
  destruct (softmax_2d fexp out 1 c fexp_pos Hwf Hs) as (Hps & Hpl & _).
  rewrite Nat.mul_1_l in Hpl.
  set (P := softmax fexp out) in *.
  assert (Hne : data P <> []) by (destruct (data P); [simpl in Hpl; lia|easy]).
  destruct (row_top1 (data P) Hne) as (v & i & Htop & Hnth & _).
  exists i, i, v, (List.map snd (skipn 1 (row_topk k (data P)))),
    (List.map fst (skipn 1 (row_topk k (data P)))).
  split; [|split; [|exact Hnth]].
  - unfold predict_class. rewrite Hp.
    unfold mbind, result_bind, rbind. change (softmax fexp out) with P.
    rewrite (max_last_single_row P c Hps Hpl) by lia. rewrite Htop. reflexivity.
  - unfold predict_top_k. rewrite Hp. unfold mbind, result_bind, rbind.
    change (softmax fexp out) with P.
    rewrite (topk_single_row P c k Hps Hpl) by lia.
    unfold squeeze. cbn [shape data List.filter Nat.eqb negb].
    destruct (Nat.eqb_spec k 1) as [->|_]; [lia|]. cbn [negb].
    assert (Hlen : length (row_topk k (data P)) = k)
      by (rewrite length_row_topk; lia).
    rewrite !tolist_vector_len by (now rewrite length_map).
    rewrite (row_topk_head k (data P)) at 1 2 by lia.
    rewrite Htop. reflexivity.
Qed.

(** C9, as the code has it. When the pipeline's output for an input has
    two dimensions and more than one row, [predict] has succeeded,
    [predict_class] raises, and [predict_class_name] fails too.
    [predict_top_k] does not fail: for every [k] from 0 to the row length
    it returns one entry per row, for the indices and for the
    probabilities. The entry of a row is the list of its [k] items, except
    for [k = 1], where it is the bare item, so that the result is then one
    flat list with an item per row. *)
Theorem output_of_several_rows (e : Engine) (x out : Tensor Q) (b c : nat) :
  wf x -> predict e x = Ok out -> shape out = [b; c] -> (2 <= b)%nat ->
  predict_class e x = Err RuntimeError /\
  is_ok (predict_class_name e x) = false /\
  (forall k, (k <= c)%nat ->
     exists idx probs,
       length idx = b /\ length probs = b /\
       List.Forall (fun r => length r = k) idx /\
       List.Forall (fun r => length r = k) probs /\
       predict_top_k e x (Z.of_nat k)
       = Ok (if Nat.eqb k 1
             then (Nested (List.map Scalar (concat idx)),
                   Nested (List.map Scalar (concat probs)))
             else (Nested (List.map (fun r => Nested (List.map Scalar r)) idx),
                   Nested (List.map (fun r => Nested (List.map Scalar r)) probs)))).
Proof.
  intros Hx Hp Hs Hb.
  pose proof (predict_wf e x out Hx Hp) as Hwf.
  destruct (softmax_2d fexp out b c fexp_pos Hwf Hs) as (Hps & Hpl & _).
  set (P := softmax fexp out) in *.
  assert (Hclass : predict_class e x = Err RuntimeError).
  { unfold predict_class. rewrite Hp. unfold mbind, result_bind, rbind.
    change (softmax fexp out) with P.
    destruct (Nat.eq_dec c 0%nat) as [->|Hc].
    - unfold max_last. rewrite Hps. reflexivity.
    - destruct (max_last_2d P b c Hps Hpl) as (v & i & -> & _ & Hi); [lia|].
      rewrite item_of_several; [reflexivity|]. simpl. lia. }
  split; [exact Hclass|]. split.
  - unfold predict_class_name. unfold mbind, result_bind, rbind.
    destruct (contains "classes" (config e)) as [[|]|]; simpl; try reflexivity.
    now rewrite Hclass.
  - intros k Hk.
    set (picked := List.map (row_topk k) (chunks b c (data P))).
    pose proof (chunks_row_length b c (data P) Hpl) as Hrows.
    rewrite List.Forall_forall in Hrows.
    assert (Hlen : forall (B : Type) (g : Q * nat -> B),
      List.Forall (fun r => length r = k) (List.map (List.map g) picked)).
    { intros B g. apply List.Forall_forall. intros r Hr.
      apply in_map_iff in Hr. destruct Hr as (r1 & <- & Hr1).
      apply in_map_iff in Hr1. destruct Hr1 as (r0 & <- & Hr0).
      rewrite length_map, length_row_topk, (Hrows r0 Hr0). lia. }
    assert (Hcount : forall (B : Type) (g : Q * nat -> B),
      length (List.map (List.map g) picked) = b).
    { intros B g. unfold picked. now rewrite !length_map, length_chunks. }
    exists (List.map (List.map snd) picked), (List.map (List.map fst) picked).
    split; [apply Hcount|]. split; [apply Hcount|].
    split; [apply Hlen|]. split; [apply Hlen|].
    unfold predict_top_k. rewrite Hp.
    unfold mbind, result_bind, rbind. change (softmax fexp out) with P.
    rewrite (topk_matrix P b c k Hps Hk). fold picked.
    unfold squeeze. cbn [shape data List.filter].
    destruct (Nat.eqb_spec b 1) as [->|_]; [lia|]. cbn [negb].
    destruct (Nat.eqb_spec k 1) as [->|_]; cbn [negb].
    + rewrite !tolist_vector_len; [reflexivity| |].
      * rewrite (length_concat_rows _ 1 (Hlen _ _)), Hcount. lia.
      * rewrite (length_concat_rows _ 1 (Hlen _ _)), Hcount. lia.
    + now rewrite !tolist_matrix by auto.
Qed.

(** X17. [predict_top_k] on an output of several rows. For [b >= 2] rows
    of [c] logits and [2 <= k <= c] the call returns two lists of [b]
    lists: for each row its [k] indices, all below [c], and its [k]
    probabilities, each between 0 and 1 and in non-increasing order. *)
Theorem top_k_of_several_rows (e : Engine) (x out : Tensor Q) (b c k : nat) :
  wf x -> predict e x = Ok out -> shape out = [b; c] ->
  (2 <= b)%nat -> (2 <= k <= c)%nat ->
  exists idx probs,
    predict_top_k e x (Z.of_nat k)
    = Ok (Nested (List.map (fun r => Nested (List.map Scalar r)) idx),
          Nested (List.map (fun r => Nested (List.map Scalar r)) probs)) /\
    length idx = b /\ length probs = b /\
    List.Forall (fun r => length r = k /\ List.Forall (fun i => i < c)%nat r) idx /\
    List.Forall (fun r => length r = k /\
                   StronglySorted (fun p q => q <= p)%Q r /\
                   List.Forall (fun p => 0 <= p <= 1)%Q r) probs.
Proof.
  intros Hx Hp Hs Hb Hk.
  pose proof (predict_wf e x out Hx Hp) as Hwf.
  destruct (softmax_2d fexp out b c fexp_pos Hwf Hs) as (Hps & Hpl & Hrange).
  set (P := softmax fexp out) in *.
  set (picked := List.map (row_topk k) (chunks b c (data P))).
  pose proof (chunks_row_length b c (data P) Hpl) as Hrows.
  rewrite List.Forall_forall in Hrows.
  assert (Hlen : forall (B : Type) (g : Q * nat -> B),
    List.Forall (fun r => length r = k) (List.map (List.map g) picked)).
  { intros B g. apply List.Forall_forall. intros r Hr.
    apply in_map_iff in Hr. destruct Hr as (r1 & <- & Hr1).
    apply in_map_iff in Hr1. destruct Hr1 as (r0 & <- & Hr0).
    rewrite length_map, length_row_topk, (Hrows r0 Hr0). lia. }
  assert (Hcount : forall (B : Type) (g : Q * nat -> B),
    length (List.map (List.map g) picked) = b).
  { intros B g. unfold picked. now rewrite !length_map, length_chunks. }
  exists (List.map (List.map snd) picked), (List.map (List.map fst) picked).
  split; [|split; [|split; [|split]]].
  - unfold predict_top_k. rewrite Hp.
    unfold mbind, result_bind, rbind. change (softmax fexp out) with P.
    rewrite (topk_matrix P b c k Hps) by lia. fold picked.
    unfold squeeze. cbn [shape data List.filter].
    destruct (Nat.eqb_spec b 1) as [->|_]; [lia|].
    destruct (Nat.eqb_spec k 1) as [->|_]; [lia|]. cbn [negb].
    now rewrite !tolist_matrix by auto.
  - apply Hcount.
  - apply Hcount.
  - apply List.Forall_forall. intros r Hr. split.
    + specialize (Hlen nat snd). rewrite List.Forall_forall in Hlen. auto.
    + apply in_map_iff in Hr. destruct Hr as (r1 & <- & Hr1).
      apply in_map_iff in Hr1. destruct Hr1 as (r0 & <- & Hr0).
      apply List.Forall_forall. intros i Hi. apply in_map_iff in Hi.
      destruct Hi as ([v j] & <- & Hin). apply in_row_topk in Hin.
      simpl. rewrite <- (Hrows r0 Hr0). lia.
  - apply List.Forall_forall. intros r Hr. split; [|split].
    + specialize (Hlen Q fst). rewrite List.Forall_forall in Hlen. auto.
    + apply in_map_iff in Hr. destruct Hr as (r1 & <- & Hr1).
      apply in_map_iff in Hr1. destruct Hr1 as (r0 & <- & Hr0).
      apply row_topk_sorted.
    + apply in_map_iff in Hr. destruct Hr as (r1 & <- & Hr1).
      apply in_map_iff in Hr1. destruct Hr1 as (r0 & <- & Hr0).
      apply List.Forall_forall. intros p Hin. apply in_map_iff in Hin.
      destruct Hin as ([v j] & <- & Hin). apply in_row_topk in Hin.
      apply Hrange. eapply in_chunks; [exact Hr0|exact (proj1 Hin)].
Qed.

End Prediction.

(** * Timing *)

Section Timing.
Context `{Ext : External}.
Import InferenceEngine.

Local Ltac unmonad :=
  unfold mbind, mret, M_bind, M_ret, result_bind, result_ret, bind, ret, raise,
    lift, get_self, set_config, set_model, rbind in *; simpl in *.

Lemma repeat_run_ok (m : Pipeline StateDict) (x y : Tensor Q) (n : nat) (s : State) :
  forward m x = Ok y -> repeat_ n (run_model m x) s = (Ok tt, s).
Proof.
  intros Hf.
  assert (Hbody : forall s', run_model m x s' = (Ok tt, s'))
    by (intros s'; unfold run_model; unmonad; now rewrite Hf).
  induction n as [|n IH]; [reflexivity|].
  cbn [repeat_]. unfold mbind, M_bind, bind. now rewrite Hbody.
Qed.

Lemma length_latencies (n : nat) : forall t, length (latencies t n) = n.
Proof. induction n as [|n IH]; intros t; simpl; [reflexivity|]. now rewrite IH. Qed.

Lemma timed_loop_ok (m : Pipeline StateDict) (x y : Tensor Q) (n : nat) :
  forward m x = Ok y ->
  forall (acc : list Q) (e : Engine) (fs : gmap string file) (t : nat),
  timed_loop n m x acc (mkState e (mkWorld fs t))
  = (Ok (acc ++ latencies t n)%list, mkState e (mkWorld fs (t + 2 * n))).
Proof.
  intros Hf. induction n as [|n IH]; intros acc e fs t.
  - simpl. unmonad. rewrite app_nil_r, Nat.add_0_r. reflexivity.
  - cbn [timed_loop latencies]. unfold run_model, time. unmonad. rewrite Hf.
    rewrite IH. rewrite <- app_assoc. simpl.
    replace (S (S (t + (n + (n + 0)))))%nat with (t + S (n + S (n + 0)))%nat by lia.
    reflexivity.
Qed.

Lemma Qmin_spec (a b : Q) : (Qmin_ a b <= a)%Q /\ (Qmin_ a b <= b)%Q /\
  (Qmin_ a b = a \/ Qmin_ a b = b).
Proof.
  unfold Qmin_. destruct (Qle_bool a b) eqn:E.
  - apply Qle_bool_iff in E. split; [apply Qle_refl|]. split; [exact E|now left].
  - assert (H : (b < a)%Q).
    { apply Qnot_le_lt. intro H. apply Qle_bool_iff in H. congruence. }
    split; [now apply Qlt_le_weak|]. split; [apply Qle_refl|now right].
Qed.

Lemma Qmax_spec (a b : Q) : (a <= Qmax_ a b)%Q /\ (b <= Qmax_ a b)%Q /\
  (Qmax_ a b = a \/ Qmax_ a b = b).
Proof.
  unfold Qmax_. destruct (Qle_bool a b) eqn:E.
  - apply Qle_bool_iff in E. split; [exact E|]. split; [apply Qle_refl|now right].
  - assert (H : (b < a)%Q).
    { apply Qnot_le_lt. intro H. apply Qle_bool_iff in H. congruence. }
    split; [apply Qle_refl|]. split; [now apply Qlt_le_weak|now left].
Qed.

Lemma fold_min_spec (l : list Q) : forall a,
  (fold_left Qmin_ l a <= a)%Q /\
  List.Forall (fun t => fold_left Qmin_ l a <= t)%Q l /\
  In (fold_left Qmin_ l a) (a :: l).
Proof.
  induction l as [|b l IH]; intros a; cbn [fold_left].
  - split; [apply Qle_refl|]. split; [constructor|now left].
  - destruct (IH (Qmin_ a b)) as (Hle & Hall & Hin).
    destruct (Qmin_spec a b) as (Ha & Hb & Hor).
    split; [eapply Qle_trans; eassumption|]. split.
    + constructor; [eapply Qle_trans; eassumption|exact Hall].
    + destruct Hin as [Hin|Hin].
      * rewrite <- Hin. destruct Hor as [->| ->]; [now left|right; now left].
      * right. now right.
Qed.

Lemma fold_max_spec (l : list Q) : forall a,
  (a <= fold_left Qmax_ l a)%Q /\
  List.Forall (fun t => t <= fold_left Qmax_ l a)%Q l /\
  In (fold_left Qmax_ l a) (a :: l).
Proof.
  induction l as [|b l IH]; intros a; cbn [fold_left].
  - split; [apply Qle_refl|]. split; [constructor|now left].
  - destruct (IH (Qmax_ a b)) as (Hle & Hall & Hin).
    destruct (Qmax_spec a b) as (Ha & Hb & Hor).
    split; [eapply Qle_trans; eassumption|]. split.
    + constructor; [eapply Qle_trans; eassumption|exact Hall].
    + destruct Hin as [Hin|Hin].
      * rewrite <- Hin. destruct Hor as [->| ->]; [now left|right; now left].
      * right. now right.
Qed.

(** X18. [warmup] with a number of iterations other than 0, on a loaded
    engine whose [input_shape] is a list of sizes. The dummy input has one
    row, whatever the first size of [input_shape] is. The clock is read
    once before and once after the passes, and the result is the time
    between the two readings divided by the number of iterations. A
    negative number runs no pass at all and returns a value all the same.
    A forward pass that raises ends the call after the first reading. The
    engine and the files are never changed. *)
Theorem warmup_average (e : Engine) (m : Pipeline StateDict) (w : World)
  (dims : list nat) (n : Z) :
  model e = Some m ->
  getitem (config e) "input_shape"
    = Ok (JList (List.map (fun d => JInt (Z.of_nat d)) dims)) ->
  let dummy := mkTensor (1%nat :: tl dims) (randn_data (1%nat :: tl dims)) in
  let elapsed := (clock (S (ticks w)) - clock (ticks w))%Q in
  let after := mkState e (mkWorld (files w) (S (S (ticks w)))) in
  (n < 0 -> warmup n (mkState e w) = (Ok (elapsed / inject_Z n)%Q, after)) /\
  (0 < n -> forall y, forward m dummy = Ok y ->
     warmup n (mkState e w) = (Ok (elapsed / inject_Z n)%Q, after)) /\
  (0 < n -> forall err, forward m dummy = Err err ->
     warmup n (mkState e w)
     = (Err err, mkState e (mkWorld (files w) (S (ticks w))))).
Proof.
  intros Hm Hshape. cbv zeta.
  assert (Hdummy : forall rest,
    tail_slice (JList (List.map (fun d => JInt (Z.of_nat d)) dims)) = Ok rest ->
    (dummy_shape ← one_plus rest; torch_randn dummy_shape)
    = Ok (mkTensor (1%nat :: tl dims) (randn_data (1%nat :: tl dims)))).
  { intros rest [= <-]. unfold torch_randn. unmonad.
    replace (tail (List.map (fun d => JInt (Z.of_nat d)) dims))
      with (List.map (fun d => JInt (Z.of_nat d)) (tail dims))
      by (destruct dims; reflexivity).
    rewrite sizes_of_nats. reflexivity. }
  specialize (Hdummy _ eq_refl).
  split; [|split].
  - intros Hn. unfold warmup, time. unmonad. rewrite Hm, Hshape. simpl.
    unfold mbind, result_bind, rbind in Hdummy. simpl in Hdummy. rewrite Hdummy.
    simpl. replace (Z.to_nat n) with 0%nat by lia. simpl.
    destruct (Z.eqb_spec n 0) as [->|_]; [lia|]. destruct w; reflexivity.
  - intros Hn y Hf. unfold warmup, time. unmonad. rewrite Hm, Hshape. simpl.
    unfold mbind, result_bind, rbind in Hdummy. simpl in Hdummy. rewrite Hdummy.
    simpl. rewrite (repeat_run_ok m _ y _ _ Hf). simpl.
    destruct (Z.eqb_spec n 0) as [->|_]; [lia|]. reflexivity.
  - intros Hn err Hf. unfold warmup, time. unmonad. rewrite Hm, Hshape. simpl.
    unfold mbind, result_bind, rbind in Hdummy. simpl in Hdummy. rewrite Hdummy.
    simpl. destruct (Z.to_nat n) as [|k] eqn:Hk; [lia|].
    cbn [repeat_]. unfold run_model. unmonad. rewrite Hf. reflexivity.
Qed.

(** X19. [benchmark] with at least one run, on a loaded engine whose
    pipeline accepts the input; the input's shape is not validated. The
    call returns statistics; the clock is read twice per timed run and not
    during the ten warm-up passes; the engine and the files are left
    alone. [min_time] and [max_time] are two of the measured latencies,
    and every measured latency lies between the two. *)
Theorem benchmark_statistics (e : Engine) (m : Pipeline StateDict) (w : World)
  (x y : Tensor Q) (n : Z) :
  model e = Some m -> forward m x = Ok y -> 0 < n ->
  let times := latencies (ticks w) (Z.to_nat n) in
  exists st,
    benchmark x n (mkState e w)
    = (Ok st, mkState e (mkWorld (files w) (ticks w + 2 * Z.to_nat n))) /\
    In (min_time st) times /\ In (max_time st) times /\
    List.Forall (fun t => min_time st <= t <= max_time st)%Q times.
Proof.
  intros Hm Hf Hn. cbv zeta.
  pose proof (length_latencies (Z.to_nat n) (ticks w)) as Hlen.
  destruct (latencies (ticks w) (Z.to_nat n)) as [|a l] eqn:Htimes;
    [simpl in Hlen; lia|].
  assert (Hrun : benchmark x n (mkState e w)
    = (Ok (mkStats (Qsum (a :: l) / inject_Z (Z.of_nat (length (a :: l))))%Q
             (fold_left Qmin_ l a) (fold_left Qmax_ l a) (std (a :: l))),
       mkState e (mkWorld (files w) (ticks w + 2 * Z.to_nat n)))).
  { unfold benchmark. unfold mbind at 1. unfold M_bind, bind, get_self.
    cbn [self model]. rewrite Hm.
    unfold mbind at 1. unfold M_bind, bind.
    rewrite (repeat_run_ok m x y 10 _ Hf).
    unfold mbind at 1. unfold M_bind, bind.
    destruct w as [fs t]. rewrite (timed_loop_ok m x y _ Hf [] e fs t).
    cbn [app files ticks] in *. rewrite Htimes. reflexivity. }
  destruct (fold_min_spec l a) as (Hmin_a & Hmin_l & Hmin_in).
  destruct (fold_max_spec l a) as (Hmax_a & Hmax_l & Hmax_in).
  eexists. split; [exact Hrun|].
  cbn [avg_time min_time max_time std_time].
  split; [exact Hmin_in|]. split; [exact Hmax_in|].
  constructor; [split; assumption|].
  rewrite List.Forall_forall in Hmin_l, Hmax_l. apply List.Forall_forall.
  intros t Ht. split; auto.
Qed.

End Timing.

(** * What [get_model_info] returns *)

Section Info.
Import ModelInfo.

(** X20. The dict [get_model_info] returns reads as the very document the
    config reads as, when the config is a non-empty dict or list; for a
    config that is [None] or empty it reads as the empty dict. *)
Theorem returned_mapping_reads_as_config (config : val) (st st' : Store) (v : val) :
  objs st !! next st = None ->
  get_model_info config st = (Ok v, st') ->
  (truthy (objs st) config = true ->
   forall fuel j, read fuel (objs st) config = Some j ->
     read fuel (objs st') v = Some j) /\
  (truthy (objs st) config = false ->
   forall fuel, read (S fuel) (objs st') v = Some (JDict [])).
Proof.
  intros Hfresh. unfold get_model_info, new.
  destruct (truthy (objs st) config) eqn:Ht.
  - destruct config as [| | | | |a]; try discriminate.
    destruct (objs st !! a) as [o|] eqn:Ha; [|discriminate].
    intros [= <- <-]. split; [|discriminate]. intros _ fuel j.
    assert (Hsub : objs st ⊆ <[next st := o]> (objs st))
      by now apply insert_subseteq.
    destruct fuel as [|fuel]; [discriminate|].
    cbn [read objs]. rewrite Ha, lookup_insert_eq.
    destruct o as [vs|es].
    + destruct (sequence (List.map (read fuel (objs st)) vs)) as [js|] eqn:Hs;
        [|discriminate].
      rewrite (sequence_map_mono (read fuel (objs st))
                 (read fuel (<[next st := OList vs]> (objs st))) vs js);
        [easy| |exact Hs].
      intros x y _. now apply read_mono.
    + match goal with |- match sequence (List.map ?f es) with _ => _ end = _ -> _ =>
        destruct (sequence (List.map f es)) as [d|] eqn:Hs; [|discriminate];
        set (F := f) in *
      end.
      match goal with |- _ -> match sequence (List.map ?g es) with _ => _ end = _ =>
        rewrite (sequence_map_mono F g es d); [easy| |exact Hs]
      end.
      intros [k x] y _. unfold F. simpl.
      destruct (read fuel (objs st) x) as [jx|] eqn:Hx; [|discriminate].
      now rewrite (read_mono fuel _ _ Hsub x jx Hx).
  - intros [= <- <-]. split; [discriminate|]. intros _ fuel.
    cbn [read objs]. now rewrite lookup_insert_eq.
Qed.

End Info.

(** * The engine on concrete inputs *)

Import InferenceEngine Reference.

Example load_model_succeeds :
  load_model "config.json" "weights.pth" (mkState init world0)
  = (Ok tt, mkState loaded world0).
Proof. vm_compute. reflexivity. Qed.

(** C1, refuted as stated: after a failed [load_model] a fresh engine
    holds the config it read, and a loaded engine holds the new config
    next to its old pipeline. *)
Lemma load_failure_keeps_new_config :
  load_model "broken.json" "weights.pth" (mkState init world0)
    = (Err (KeyError "input_size"),
       mkState (mkEngine None broken_config) world0) /\
  load_model "broken.json" "weights.pth" (mkState loaded world0)
    = (Err (KeyError "input_size"),
       mkState (mkEngine (Some flatten_pipeline) broken_config) world0) /\
  config init <> broken_config /\ config loaded <> broken_config.
Proof.
  split; [vm_compute; reflexivity|].
  split; [vm_compute; reflexivity|].
  split; discriminate.
Qed.

Lemma load_model_failure_witness :
  load_failure_outcome "broken.json" (mkState loaded world0)
    (mkState (mkEngine (Some flatten_pipeline) broken_config) world0)
    (KeyError "input_size").
Proof.
  apply (load_model_failure "broken.json" "weights.pth").
  vm_compute. reflexivity.
Defined.

Lemma predict_shape_validation_witness :
  predict loaded rows23 = forward flatten_pipeline rows23 /\
  predict loaded row10 = Err (ValueError "Invalid input shape").
Proof.
  split.
  - apply (predict_shape_validation loaded flatten_pipeline [1; 3] rows23);
      [reflexivity | reflexivity |].
    split; [reflexivity|]. intros i Hi. simpl in Hi.
    assert (i = 1%nat) as -> by lia. reflexivity.
  - apply (predict_shape_validation loaded flatten_pipeline [1; 3] row10);
      [reflexivity | reflexivity |].
    intros [_ H]. specialize (H 1%nat). simpl in H.
    assert (Hi : (1 <= 1 < 2)%nat) by lia. specialize (H Hi). discriminate.
Defined.

(** C3, refuted as stated: on a fresh engine [predict_batch] of the empty
    list returns the empty list, and [predict_class_name] raises a
    [TypeError] from the membership test on [None]. *)
Lemma unloaded_calls_that_do_not_raise_not_loaded :
  predict_batch init [] = Ok [] /\
  predict_class_name init row3 = Err TypeError.
Proof. split; reflexivity. Qed.

Example sample_pipeline :
  _build_model_from_config (mkEngine None sample_config)
  = Ok (nn_Sequential [Sequential [Linear 784 128; ReLU]; Dropout (1 # 5);
                       Sequential [Linear 128 10; Softmax (-1)]]).
Proof. vm_compute. reflexivity. Qed.

Lemma build_preserves_order_witness :
  exists p, _build_model_from_config (mkEngine None sample_config) = Ok p /\
    length (stages p)
      = (length sample_layers
         - length (List.filter (fun l => negb (layer_recognized l)) sample_layers))%nat /\
    Forall2 (fun l st => _create_layer l = Ok (Some st))
      (List.filter layer_recognized sample_layers) (stages p).
Proof.
  apply (build_preserves_order (mkEngine None sample_config) sample_layers).
  - reflexivity.
  - repeat constructor.
Defined.



(** C6 at inputs where the code departs from it: with [k = 1] the result
    holds a bare index and a bare probability instead of two lists of one
    element, and for an input of two rows it holds one list per row. *)
Lemma top_k_results_that_are_not_flat_lists :
  _validate_input_shape loaded (shape row3) = Ok true /\
  predict_top_k loaded row3 1 = Ok (Scalar 1%nat, Scalar (4 # 9)) /\
  as_flat_list (Scalar 1%nat) = None /\
  _validate_input_shape loaded (shape rows23) = Ok true /\
  predict_top_k loaded rows23 2
  = Ok (Nested [Nested [Scalar 1%nat; Scalar 2%nat];
                Nested [Scalar 2%nat; Scalar 0%nat]],
        Nested [Nested [Scalar (4 # 9); Scalar (3 # 9)];
                Nested [Scalar (7 # 18); Scalar (6 # 18)]]) /\
  as_flat_list (Nested [Nested [Scalar 1%nat; Scalar 2%nat];
                        Nested [Scalar 2%nat; Scalar 0%nat]]) = None.
Proof. repeat split; vm_compute; reflexivity. Qed.



(** C9, refuted as stated: on a valid input of two rows [predict_top_k]
    succeeds, while [predict_class] fails. *)
Lemma top_k_succeeds_on_two_rows :
  predict loaded rows23 = Ok rows23 /\
  predict_class loaded rows23 = Err RuntimeError /\
  is_ok (predict_top_k loaded rows23 2) = true.
Proof. repeat split; vm_compute; reflexivity. Qed.

Lemma output_of_several_rows_witness :
  predict_class loaded rows23 = Err RuntimeError /\
  is_ok (predict_class_name loaded rows23) = false /\
  (forall k, (k <= 3)%nat ->
     exists idx probs,
       length idx = 2%nat /\ length probs = 2%nat /\
       List.Forall (fun r => length r = k) idx /\
       List.Forall (fun r => length r = k) probs /\
       predict_top_k loaded rows23 (Z.of_nat k)
       = Ok (if Nat.eqb k 1
             then (Nested (List.map Scalar (concat idx)),
                   Nested (List.map Scalar (concat probs)))
             else (Nested (List.map (fun r => Nested (List.map Scalar r)) idx),
                   Nested (List.map (fun r => Nested (List.map Scalar r)) probs)))).
Proof.
  apply (output_of_several_rows loaded rows23 rows23 2 3);
    [reflexivity | reflexivity | reflexivity | lia].
Defined.

Lemma zero_iterations_raise_witness :
  fst (warmup 0 (mkState loaded world0)) = Err ZeroDivisionError /\
  (forall x y, forward flatten_pipeline x = Ok y ->
     fst (benchmark x 0 (mkState loaded world0)) = Err ZeroDivisionError) /\
  (forall x, is_ok (fst (benchmark x 0 (mkState loaded world0))) = false).
Proof.
  apply (zero_iterations_raise loaded flatten_pipeline world0 [1%nat; 3%nat]);
    reflexivity.
Defined.


(** C7, refuted as stated: the caller takes the [classes] list out of the
    returned dict and appends to it, and the engine's own config has the
    new class. *)
Lemma nested_mutation_reaches_the_config :
  ModelInfo.read 4 (ModelInfo.objs store1) config_ref = Some shared_config /\
  fst (ModelInfo.get_model_info config_ref store1) = Ok (ModelInfo.VRef 6) /\
  config_ref = ModelInfo.VRef 5 /\
  ModelInfo.read 4 (ModelInfo.objs store2) (ModelInfo.VRef 6) = Some shared_config /\
  ModelInfo.lookup_key (ModelInfo.objs store2) (ModelInfo.VRef 6) "classes"
    = Some (ModelInfo.VRef 1) /\
  ModelInfo.read 4
    (ModelInfo.mutate 1 (ModelInfo.ListAppend (ModelInfo.VStr "d"))
       (ModelInfo.objs store2)) config_ref
  = Some (JDict [("input_shape", JList [JInt 1; JInt 3]);
                 ("classes", JList [JStr "a"; JStr "b"; JStr "c"; JStr "d"]);
                 ("layers",
                  JList [JDict [("type", JStr "Flatten"); ("params", JDict [])]])]).
Proof. repeat split; vm_compute; reflexivity. Qed.

Lemma returned_mapping_is_a_new_object_witness :
  ModelInfo.VRef 6 = ModelInfo.VRef (ModelInfo.next store1) /\
  (ModelInfo.truthy (ModelInfo.objs store1) config_ref = false ->
   ModelInfo.objs store2 !! ModelInfo.next store1 = Some (ModelInfo.ODict [])) /\
  (forall a, config_ref = ModelInfo.VRef a ->
     ModelInfo.truthy (ModelInfo.objs store1) config_ref = true ->
     ModelInfo.objs store2 !! ModelInfo.next store1 = ModelInfo.objs store1 !! a) /\
  (forall mu fuel j,
     ModelInfo.read fuel (ModelInfo.objs store1) config_ref = Some j ->
     ModelInfo.read fuel
       (ModelInfo.mutate (ModelInfo.next store1) mu (ModelInfo.objs store2))
       config_ref = Some j).
Proof.
  apply (returned_mapping_is_a_new_object config_ref store1 store2);
    vm_compute; reflexivity.
Defined.

Lemma top_k_of_single_row_witness :
  (exists idx probs,
     predict_top_k loaded row3 (Z.of_nat 2)
       = Ok (Nested (List.map Scalar idx), Nested (List.map Scalar probs)) /\
     length idx = 2%nat /\ length probs = 2%nat /\
     List.Forall (fun p => 0 <= p <= 1)%Q probs /\
     StronglySorted (fun p q => q <= p)%Q probs /\
     List.Forall (fun i => i < 3)%nat idx) /\
  (forall k', Z.of_nat 3 < k' -> predict_top_k loaded row3 k' = Err RuntimeError).
Proof.
  apply (top_k_of_single_row loaded row3 row3 3 2);
    [reflexivity | reflexivity | reflexivity | lia].
Defined.

(** ** Loading and saving *)

Lemma load_weights_reports_the_fallback_error_witness :
  read_json "weights.pth" (mkState init world0)
  = (Err DecodeError, mkState init world0).
Proof.
  apply (load_weights_reports_the_fallback_error "weights.pth"
           (mkState init world0)).
  vm_compute. reflexivity.
Defined.

Lemma load_weights_native_witness :
  _load_weights "trained.pth" (mkState loaded world1)
  = (Ok tt, mkState trained world1).
Proof.
  apply (load_weights_native "trained.pth" (mkState loaded world1)
           flatten_pipeline [1%Q; 2%Q] [1%Q; 2%Q] None);
    vm_compute; reflexivity.
Defined.

Lemma load_model_success_witness :
  world (mkState trained world1) = world (mkState init world1) /\
  exists c m m',
    files (world (mkState init world1)) !! "config.json" = Some (JsonText c) /\
    _build_model_from_config (mkEngine None c) = Ok m /\
    self (mkState trained world1) = mkEngine (Some m') c /\
    stages m' = stages m /\ placed m' = true /\ training m' = false /\
    ((exists sd,
        files (world (mkState init world1)) !! "trained.pth"
          = Some (NativeBlob sd) /\
        load_state_dict m sd = (params m', None)) \/
     (exists j,
        files (world (mkState init world1)) !! "trained.pth"
          = Some (JsonText j) /\
        params m' = default_state (stages m))).
Proof.
  apply (load_model_success "config.json" "trained.pth"
           (mkState init world1) (mkState trained world1)).
  vm_compute. reflexivity.
Defined.

Lemma load_model_replaces_the_engine_witness :
  snd (load_model "config.json" "trained.pth" (mkState init world1))
  = snd (load_model "config.json" "trained.pth" (mkState loaded world1)).
Proof.
  pose proof (load_model_replaces_the_engine "config.json" "trained.pth"
                init loaded world1) as H.
  cbv zeta in H. destruct H as [_ H].
  apply (H [1%Q; 2%Q]); vm_compute; reflexivity.
Defined.

Lemma save_model_round_trip_witness :
  exists s', save_model "out.pth" (mkState trained world0) = (Ok tt, s') /\
    self s' = trained /\ ticks (world s') = ticks world0 /\
    (forall q, q <> "out.pth" -> files (world s') !! q = files world0 !! q) /\
    torch_load "out.pth" s' = (Ok [1%Q; 2%Q], s') /\
    read_json "out.pth" s' = (Err DecodeError, s') /\
    (forall p,
       load_state_dict (mkPipeline [Flatten] [1%Q; 2%Q] true false) [1%Q; 2%Q]
         = (p, None) ->
       _load_weights "out.pth" s'
       = (Ok tt,
          mkState (mkEngine (Some (mkPipeline [Flatten] p true false))
                     flatten_config) (world s'))).
Proof.
  destruct (save_model_round_trip "out.pth" (mkState trained world0)
              (mkPipeline [Flatten] [1%Q; 2%Q] true false) eq_refl) as [_ H].
  exact (H eq_refl).
Defined.

(** ** Building *)

Lemma build_reports_first_failure_witness :
  build_loop ([flatten_layer; unknown_layer] ++ dense_without_sizes :: [flatten_layer]) []
  = Err (KeyError "input_size").
Proof.
  apply (build_reports_first_failure [flatten_layer; unknown_layer]
           [flatten_layer] dense_without_sizes [] (KeyError "input_size")).
  - constructor; [reflexivity|]. constructor; [reflexivity|]. constructor.
  - reflexivity.
Defined.

Lemma dense_activation_witness :
  (exists act, _create_activation (JStr "ReLU") = Ok (Some act) /\
     _create_layer dense_relu = Ok (Some (Sequential [Linear 4 2; act]))) /\
  _create_layer dense_swish = Ok (Some (Linear 4 2)).
Proof.
  split.
  - destruct (dense_activation (Ext := ref) dense_relu dense_relu_params 4 2
                eq_refl eq_refl eq_refl eq_refl eq_refl) as (_ & H & _).
    apply (H "ReLU"); [reflexivity|]. now left.
  - destruct (dense_activation (Ext := ref) dense_swish dense_swish_params 4 2
                eq_refl eq_refl eq_refl eq_refl eq_refl) as (_ & _ & H).
    apply (H "Swish"); [reflexivity|].
    intros [H'|[H'|[H'|[H'|[H'|[]]]]]]; discriminate.
Defined.

(** ** Prediction *)

Lemma validation_against_any_list_witness :
  exists b, _validate_input_shape loose [5%nat; 3%nat] = Ok b /\
    (b = true <->
     length [5%nat; 3%nat] = length loose_shape /\
     forall i v, (1 <= i)%nat -> nth_error loose_shape i = Some v ->
       eq_int (Z.of_nat (nth i [5%nat; 3%nat] 0%nat)) v = true).
Proof.
  apply (proj1 (validation_against_any_list loose [5%nat; 3%nat]) loose_shape).
  reflexivity.
Defined.

Lemma predict_batch_maps_predict_witness :
  predict_batch loaded [row3; rows23] = Ok [row3; rows23].
Proof.
  apply (predict_batch_maps_predict loaded [row3; rows23] [row3; rows23]).
  constructor; [vm_compute; reflexivity|].
  constructor; [vm_compute; reflexivity|]. constructor.
Defined.

Lemma predict_batch_first_failure_witness :
  predict_batch loaded ([rows23] ++ row10 :: [row3])
  = Err (ValueError "Invalid input shape").
Proof.
  apply (predict_batch_first_failure loaded [rows23] [row3] row10).
  - constructor; [vm_compute; reflexivity|]. constructor.
  - vm_compute. reflexivity.
Defined.

Lemma predict_class_of_single_row_witness :
  (3%nat = 0%nat -> predict_class loaded row3 = Err RuntimeError) /\
  ((1 <= 3)%nat ->
   exists i p, predict_class loaded row3 = Ok (i, p) /\
     (i < 3)%nat /\ (0 <= p <= 1)%Q /\
     nth_error (data (softmax fexp row3)) i = Some p /\
     List.Forall (fun q => q <= p)%Q (data (softmax fexp row3))).
Proof.
  apply (predict_class_of_single_row loaded row3 row3 3); reflexivity.
Defined.

Lemma confidence_at_least_uniform_witness :
  (1 / inject_Z (Z.of_nat 3) <= 4 # 9)%Q.
Proof.
  apply (confidence_at_least_uniform loaded row3 row3 3 1 (4 # 9));
    [reflexivity | reflexivity | reflexivity | lia | vm_compute; reflexivity].
Defined.

Lemma predict_class_name_lookup_witness :
  predict_class_name named row3 = Ok (JStr "b", 4 # 9).
Proof.
  destruct (predict_class_name_lookup named row3 named_entries eq_refl)
    as (_ & H & _).
  apply (H [JStr "a"; JStr "b"; JStr "c"] 1%nat (4 # 9));
    vm_compute; reflexivity.
Defined.

Lemma top_k_edge_values_witness :
  (forall k, k < 0 -> predict_top_k loaded row3 k = Err RuntimeError) /\
  predict_top_k loaded row3 0 = Ok (Nested [], Nested []) /\
  exists i j p, predict_class loaded row3 = Ok (i, p) /\
    predict_top_k loaded row3 1 = Ok (Scalar j, Scalar p) /\
    nth_error (data (softmax fexp row3)) j = Some p.
Proof.
  apply (top_k_edge_values loaded row3 row3 3);
    [reflexivity | reflexivity | reflexivity | lia].
Defined.

Lemma top_k_starts_with_the_confidence_witness :
  exists i j p idx probs,
    predict_class loaded row3 = Ok (i, p) /\
    predict_top_k loaded row3 (Z.of_nat 2)
    = Ok (Nested (Scalar j :: List.map Scalar idx),
          Nested (Scalar p :: List.map Scalar probs)) /\
    nth_error (data (softmax fexp row3)) j = Some p.
Proof.
  apply (top_k_starts_with_the_confidence loaded row3 row3 3 2);
    [reflexivity | reflexivity | reflexivity | lia].
Defined.

Lemma top_k_of_several_rows_witness :
  exists idx probs,
    predict_top_k loaded rows23 (Z.of_nat 2)
    = Ok (Nested (List.map (fun r => Nested (List.map Scalar r)) idx),
          Nested (List.map (fun r => Nested (List.map Scalar r)) probs)) /\
    length idx = 2%nat /\ length probs = 2%nat /\
    List.Forall (fun r => length r = 2%nat /\
                   List.Forall (fun i => i < 3)%nat r) idx /\
    List.Forall (fun r => length r = 2%nat /\
                   StronglySorted (fun p q => q <= p)%Q r /\
                   List.Forall (fun p => 0 <= p <= 1)%Q r) probs.
Proof.
  apply (top_k_of_several_rows loaded rows23 rows23 2 3 2);
    [reflexivity | reflexivity | reflexivity | lia | lia].
Defined.

(** ** Timing *)

Lemma warmup_average_witness :
  warmup 5 (mkState loaded world0)
  = (Ok ((clock 1 - clock 0) / inject_Z 5)%Q,
     mkState loaded (mkWorld (files world0) 2)) /\
  warmup (-5) (mkState loaded world0)
  = (Ok ((clock 1 - clock 0) / inject_Z (-5))%Q,
     mkState loaded (mkWorld (files world0) 2)).
Proof.
  pose proof (warmup_average loaded flatten_pipeline world0 [1%nat; 3%nat] 5
                eq_refl eq_refl) as Hplus.
  pose proof (warmup_average loaded flatten_pipeline world0 [1%nat; 3%nat] (-5)
                eq_refl eq_refl) as Hminus.
  cbv zeta in Hplus, Hminus.
  destruct Hplus as (_ & Hplus & _). destruct Hminus as (Hminus & _).
  split.
  - eapply Hplus; [lia | reflexivity].
  - apply Hminus. lia.
Defined.

Lemma benchmark_statistics_witness :
  let times := latencies (ticks world0) (Z.to_nat 3) in
  exists st,
    benchmark row3 3 (mkState loaded world0)
    = (Ok st, mkState loaded
                (mkWorld (files world0) (ticks world0 + 2 * Z.to_nat 3))) /\
    In (min_time st) times /\ In (max_time st) times /\
    List.Forall (fun t => min_time st <= t <= max_time st)%Q times.
Proof.
  apply (benchmark_statistics loaded flatten_pipeline world0 row3 row3 3);
    [reflexivity | reflexivity | lia].
Defined.

(** ** The returned info *)

Lemma returned_mapping_reads_as_config_witness :
  ModelInfo.read 4 (ModelInfo.objs store2) (ModelInfo.VRef 6) = Some shared_config.
Proof.
  destruct (returned_mapping_reads_as_config config_ref store1 store2
              (ModelInfo.VRef 6)) as [H _];
    [vm_compute; reflexivity | vm_compute; reflexivity |].
  apply H; vm_compute; reflexivity.
Defined.
